(** * Omni-Tutor: the model gateway, the history store and the tutoring session

    A shallow embedding of [services/geminiService.ts], [services/historyService.ts]
    and the event handlers of [App.tsx], with the properties of the two-stage
    tutoring design stated and proved against it.

    JavaScript values are kept as JSON trees, thrown errors as results, and the
    host (local storage, clock, random source, model service, React state) as an
    explicit world threaded through a small state-and-error monad. *)

From Stdlib Require Import ZArith String Ascii List Bool Lia.
From Stdlib Require Import DecimalString DecimalN DecimalFacts.
From stdpp Require Import base gmap strings list.
Import ListNotations.

(** ** JavaScript values *)

Module Js.

(** What [JSON.parse] can build.  Numbers are the integers (every number this
    program makes is a clock reading).  The members of an object are kept in
    the order they were written; a later member of the same name shadows an
    earlier one, so writing a property is adding a member at the end. *)
#[local] Unset Elimination Schemes.
Inductive JSON : Type :=
| JNull
| JBool (b : bool)
| JNum (n : Z)
| JStr (s : string)
| JArr (elems : list JSON)
| JObj (members : list (string * JSON)).
#[local] Set Elimination Schemes.

(** Induction over a JSON value, with the property known of the elements of
    an array and of the members of an object. *)
Section JSON_induction.
Variable P : JSON -> Prop.
Hypothesis Hnull : P JNull.
Hypothesis Hbool : forall b, P (JBool b).
Hypothesis Hnum : forall n, P (JNum n).
Hypothesis Hstr : forall s, P (JStr s).
Hypothesis Harr : forall l, Forall P l -> P (JArr l).
Hypothesis Hobj : forall ms, Forall (fun m => P (snd m)) ms -> P (JObj ms).

Fixpoint JSON_ind (v : JSON) : P v :=
  match v with
  | JNull => Hnull
  | JBool b => Hbool b
  | JNum n => Hnum n
  | JStr s => Hstr s
  | JArr l =>
      Harr l ((fix go (l : list JSON) : Forall P l :=
                 match l with
                 | [] => List.Forall_nil P
                 | x :: r => List.Forall_cons P x r (JSON_ind x) (go r)
                 end) l)
  | JObj ms =>
      Hobj ms ((fix go (l : list (string * JSON)) : Forall (fun m => P (snd m)) l :=
                  match l with
                  | [] => List.Forall_nil _
                  | m :: r => List.Forall_cons _ m r (JSON_ind (snd m)) (go r)
                  end) ms)
  end.
End JSON_induction.

(** A value as an expression yields it: [None] is [undefined]. *)
Definition value : Type := option JSON.
Definition undefined : value := None.

Inductive JsError : Type :=
| Error (message : string)
| TypeError (message : string)
| SyntaxError (message : string).

Definition message (e : JsError) : string :=
  match e with Error m | TypeError m | SyntaxError m => m end.

Inductive Result (A : Type) : Type :=
| Ok (a : A)
| Throw (e : JsError).
Arguments Ok {A} a.
Arguments Throw {A} e.

Definition string_of_N (n : N) : string := NilZero.string_of_uint (N.to_uint n).
Definition string_of_Z (z : Z) : string :=
  if (z <? 0)%Z then "-" +:+ string_of_N (Z.to_N (- z)) else string_of_N (Z.to_N z).
Definition string_of_nat (n : nat) : string := string_of_N (N.of_nat n).

Fixpoint join (sep : string) (l : list string) : string :=
  match l with
  | [] => ""
  | [s] => s
  | s :: r => s +:+ sep +:+ join sep r
  end.

(** [String(v)], as a template literal applies it. *)
Fixpoint ToString (v : JSON) : string :=
  match v with
  | JNull => "null"
  | JBool true => "true"
  | JBool false => "false"
  | JNum n => string_of_Z n
  | JStr s => s
  | JArr l =>
      join "," (map (fun x => match x with JNull => "" | _ => ToString x end) l)
  | JObj _ => "[object Object]"
  end.

Definition ToString_value (v : value) : string :=
  match v with
  | None => "undefined"
  | Some x => ToString x
  end.

Definition truthy_string (s : string) : bool := negb (String.eqb s "").

Definition truthy (v : JSON) : bool :=
  match v with
  | JNull => false
  | JBool b => b
  | JNum n => negb (Z.eqb n 0)
  | JStr s => truthy_string s
  | JArr _ | JObj _ => true
  end.

(** [a || b] on strings. *)
Definition or_string (a b : string) : string := if truthy_string a then a else b.

(** The member of name [k] in force: the last one written. *)
Fixpoint own (k : string) (ms : list (string * JSON)) : value :=
  match ms with
  | [] => None
  | (k', v) :: r =>
      match own k r with
      | Some x => Some x
      | None => if String.eqb k' k then Some v else None
      end
  end.

Fixpoint indexed (i : nat) (l : list JSON) : list (string * JSON) :=
  match l with
  | [] => []
  | x :: r => (string_of_nat i, x) :: indexed (S i) r
  end.

Definition chars (s : string) : list JSON :=
  map (fun c => JStr (String c EmptyString)) (list_ascii_of_string s).

(** The own enumerable properties, which an object spread [{...v}] copies. *)
Definition own_props (v : JSON) : list (string * JSON) :=
  match v with
  | JObj ms => ms
  | JArr l => indexed 0 l
  | JStr s => indexed 0 (chars s)
  | JNull | JBool _ | JNum _ => []
  end.

(** [v.k] for the member names this program reads ([next_instruction],
    [new_practice_question], [topic], [question_text], [feedback_message],
    [evaluation_result], [dialogue_action], [timestamp]): none of them is
    [length], an index or an inherited name, so on an array, a string, a number
    or a boolean the read is [undefined].  Reading from [null] or [undefined]
    throws. *)
Definition get_prop (v : value) (k : string) : Result value :=
  match v with
  | None =>
      Throw (TypeError ("Cannot read properties of undefined (reading '" +:+ k +:+ "')"))
  | Some JNull =>
      Throw (TypeError ("Cannot read properties of null (reading '" +:+ k +:+ "')"))
  | Some (JObj ms) => Ok (own k ms)
  | Some _ => Ok None
  end.

Definition typeof (v : JSON) : string :=
  match v with
  | JNull | JArr _ | JObj _ => "object"
  | JBool _ => "boolean"
  | JNum _ => "number"
  | JStr _ => "string"
  end.

(** [v.k = x] in module (strict) code.  On [null] and on a primitive the
    assignment throws.  An array that receives a named property is kept as the
    object of its own properties: every later use of such a value in this
    program is a member read or an object spread, which see just those. *)
Definition assign_prop (v : JSON) (k : string) (x : JSON) : Result JSON :=
  match v with
  | JNull =>
      Throw (TypeError ("Cannot set properties of null (setting '" +:+ k +:+ "')"))
  | JBool _ | JNum _ | JStr _ =>
      Throw (TypeError ("Cannot create property '" +:+ k +:+ "' on " +:+ typeof v
                        +:+ " '" +:+ ToString v +:+ "'"))
  | JArr _ | JObj _ => Ok (JObj (own_props v ++ [(k, x)]))
  end.

(** The elements an array spread [[...v]] takes from [v]. *)
Definition iterate (what : string) (v : JSON) : Result (list JSON) :=
  match v with
  | JArr l => Ok l
  | JStr s => Ok (chars s)
  | JNull | JBool _ | JNum _ | JObj _ => Throw (TypeError (what +:+ " is not iterable"))
  end.

Definition has_field (k : string) (v : JSON) : bool :=
  match v with
  | JObj ms => bool_decide (is_Some (own k ms))
  | _ => false
  end.

(** [Number.prototype.toString(36)] on an integer. *)
Definition digit36 (d : N) : ascii :=
  if (d <? 10)%N then ascii_of_N (48 + d) else ascii_of_N (87 + d).

Fixpoint radix36 (fuel : nat) (n : N) (acc : string) : string :=
  match fuel with
  | O => acc
  | S fuel' =>
      let acc' := String (digit36 (n mod 36)) acc in
      if (n / 36 =? 0)%N then acc' else radix36 fuel' (n / 36) acc'
  end.

Definition toString36 (z : Z) : string :=
  let n := Z.to_N (Z.abs z) in
  let digits := radix36 (S (N.to_nat (N.log2 n))) n "" in
  if (z <? 0)%Z then "-" +:+ digits else digits.

(** [s.substr(k)]. *)
Fixpoint substr (k : nat) (s : string) : string :=
  match k, s with
  | O, _ => s
  | S k', String _ r => substr k' r
  | S _, EmptyString => EmptyString
  end.

(** The two JSON built-ins of the host.  [JSON_parse] gives [None] where the
    built-in throws a [SyntaxError]. *)
Class Host : Type := {
  JSON_parse : string -> option JSON;
  JSON_stringify : JSON -> string
}.

(** What the development relies on about them: text written by
    [JSON.stringify] reads back as the value written, and the empty text is
    not JSON. *)
Class HostLaws (H : Host) : Prop := {
  parse_stringify : forall v, JSON_parse (JSON_stringify v) = Some v;
  parse_empty : JSON_parse "" = None
}.

End Js.
Import Js.

(** ** The data model ([types.ts]) and the host *)

(** A [File] of the browser: its name, its declared MIME type, its size in
    bytes and its content. *)
Module File.
Record t : Type := make { name : string; type : string; size : N; data : string }.
End File.

(** A recorded audio clip. *)
Module Blob.
Record t : Type := make { type : string; data : string }.
End Blob.

Inductive Role : Type := user | tutor.

(** [ChatMessage].  [content], [timestamp] and [feedbackType] hold whatever
    the handlers put there, which for a diagnosis read from storage or from the
    model need not be a string or a number; [feedbackType] is [undefined] on a
    user message. *)
Record ChatMessage : Type := {
  role : Role;
  content : value;
  timestamp : value;
  feedbackType : value
}.

(** The response-shape contract sent with a request. *)
#[local] Unset Elimination Schemes.
Inductive Schema : Type :=
| SString (enum : option (list string))
| SObject (properties : list (string * Schema)) (required : list string).
#[local] Set Elimination Schemes.

(** The prompt of a request: which of the two templates it is, with the texts
    spliced into it (the fixed wording of the templates is left out). *)
Inductive Prompt : Type :=
| DiagnosisPrompt (transcript : string)
| FeedbackPrompt (topic question historyStr currentInput : string).

Inductive Part : Type :=
| text (prompt : Prompt)
| inlineData (mimeType data : string).

Record Request : Type := {
  model : string;
  parts : list Part;
  responseMimeType : string;
  responseSchema : Schema
}.

(** [response.text]: absent or a string. *)
Record Response : Type := { response_text : option string }.

(** The state of the [App] component, one field per [useState]. *)
Record State : Type := mkState {
  image : option File.t;
  previewUrl : option string;
  textInput : string;
  audioBlob : option Blob.t;
  diagnosis : JSON;
  chatHistory : list ChatMessage;
  replyText : string;
  replyAudio : option Blob.t;
  isMasteryAchieved : bool;
  isLoading : bool;
  error : option string;
  history : JSON;
  showHistory : bool
}.

Definition initialState : State :=
  {| image := None; previewUrl := None; textInput := ""; audioBlob := None;
     diagnosis := JNull; chatHistory := []; replyText := ""; replyAudio := None;
     isMasteryAchieved := false; isLoading := false; error := None;
     history := JArr []; showHistory := false |}.

(** What lies outside the program and answers it: the credential, the clock,
    the random source, the model service, the two encoders of [services/utils]
    (whose source is not at hand: they are taken as given, and may fail) and
    the browser's object URLs.  Clock and random source are read by position;
    the service answers its [i]-th request. *)
Record Env : Type := {
  API_KEY : option string;
  clock : nat -> Z;
  random36 : nat -> string;
  service : nat -> Request -> Result Response;
  fileToGenerativePart : File.t -> Result string;
  blobToGenerativePart : Blob.t -> Result string;
  createObjectURL : File.t -> string
}.

(** What the program changes: local storage, the requests sent so far (oldest
    first), the number of clock and random readings taken, and the component
    state as the set-calls made so far leave it. *)
Record World : Type := mkWorld {
  localStorage : gmap string string;
  requests : list Request;
  ticks : nat;
  ui : State
}.

(** ** Computations: a world transformer that may throw

    A thrown error leaves the world as it was when it was thrown.  An
    asynchronous handler is run to its end in one go: nothing else happens
    while it awaits (one call is outstanding at a time). *)

Definition M (A : Type) : Type := World -> Result A * World.

Definition ret {A} (a : A) : M A := fun w => (Ok a, w).

Definition bind {A B} (m : M A) (k : A -> M B) : M B :=
  fun w => match m w with
           | (Ok a, w') => k a w'
           | (Throw e, w') => (Throw e, w')
           end.

Definition throw {A} (e : JsError) : M A := fun w => (Throw e, w).

Definition lift {A} (r : Result A) : M A := fun w => (r, w).

(** [try m catch (e) { h e }]. *)
Definition try_catch {A} (m : M A) (h : JsError -> M A) : M A :=
  fun w => match m w with
           | (Ok a, w') => (Ok a, w')
           | (Throw e, w') => h e w'
           end.

(** [try m finally { f }]. *)
Definition try_finally {A} (m : M A) (f : M unit) : M A :=
  fun w => match m w with
           | (r, w') => match f w' with
                        | (Ok _, w'') => (r, w'')
                        | (Throw e, w'') => (Throw e, w'')
                        end
           end.

Declare Scope js_scope.
Delimit Scope js_scope with js.
Notation "x <- m ;; k" := (bind m (fun x => k))
  (at level 100, m at next level, right associativity) : js_scope.
Notation "m ;; k" := (bind m (fun _ => k))
  (at level 100, right associativity) : js_scope.
Open Scope js_scope.

Definition modify (f : World -> World) : M unit := fun w => (Ok tt, f w).

Definition with_ui (f : State -> State) (w : World) : World :=
  {| localStorage := localStorage w; requests := requests w; ticks := ticks w;
     ui := f (ui w) |}.

Definition with_storage (f : gmap string string -> gmap string string) (w : World) : World :=
  {| localStorage := f (localStorage w); requests := requests w; ticks := ticks w;
     ui := ui w |}.

Definition tick (w : World) : World :=
  {| localStorage := localStorage w; requests := requests w; ticks := S (ticks w);
     ui := ui w |}.

Definition sent (r : Request) (w : World) : World :=
  {| localStorage := localStorage w; requests := requests w ++ [r]; ticks := ticks w;
     ui := ui w |}.

Definition Date_now (env : Env) : M Z := fun w => (Ok (clock env (ticks w)), tick w).

(** [Math.random().toString(36)]. *)
Definition Math_random_toString36 (env : Env) : M string :=
  fun w => (Ok (random36 env (ticks w)), tick w).

Definition getItem (k : string) : M (option string) :=
  fun w => (Ok (localStorage w !! k), w).

Definition setItem (k v : string) : M unit := modify (with_storage (insert k v)).

Definition removeItem (k : string) : M unit := modify (with_storage (delete k)).

(** [ai.models.generateContent]: the request goes out and the service answers
    or fails. *)
Definition generateContent (env : Env) (r : Request) : M Response :=
  fun w => (service env (length (requests w)) r, sent r w).

(** The React setters. *)
Definition setImage (v : option File.t) : M unit := modify (with_ui (fun s =>
  mkState v (previewUrl s) (textInput s) (audioBlob s) (diagnosis s) (chatHistory s)
    (replyText s) (replyAudio s) (isMasteryAchieved s) (isLoading s) (error s)
    (history s) (showHistory s))).
Definition setPreviewUrl (v : option string) : M unit := modify (with_ui (fun s =>
  mkState (image s) v (textInput s) (audioBlob s) (diagnosis s) (chatHistory s)
    (replyText s) (replyAudio s) (isMasteryAchieved s) (isLoading s) (error s)
    (history s) (showHistory s))).
Definition setTextInput (v : string) : M unit := modify (with_ui (fun s =>
  mkState (image s) (previewUrl s) v (audioBlob s) (diagnosis s) (chatHistory s)
    (replyText s) (replyAudio s) (isMasteryAchieved s) (isLoading s) (error s)
    (history s) (showHistory s))).
Definition setAudioBlob (v : option Blob.t) : M unit := modify (with_ui (fun s =>
  mkState (image s) (previewUrl s) (textInput s) v (diagnosis s) (chatHistory s)
    (replyText s) (replyAudio s) (isMasteryAchieved s) (isLoading s) (error s)
    (history s) (showHistory s))).
Definition setDiagnosis (v : JSON) : M unit := modify (with_ui (fun s =>
  mkState (image s) (previewUrl s) (textInput s) (audioBlob s) v (chatHistory s)
    (replyText s) (replyAudio s) (isMasteryAchieved s) (isLoading s) (error s)
    (history s) (showHistory s))).
(** [setChatHistory] takes an updater, [prev => ...]; a plain value is the
    constant updater. *)
Definition setChatHistory (f : list ChatMessage -> list ChatMessage) : M unit :=
  modify (with_ui (fun s =>
  mkState (image s) (previewUrl s) (textInput s) (audioBlob s) (diagnosis s)
    (f (chatHistory s)) (replyText s) (replyAudio s) (isMasteryAchieved s) (isLoading s)
    (error s) (history s) (showHistory s))).
Definition setReplyText (v : string) : M unit := modify (with_ui (fun s =>
  mkState (image s) (previewUrl s) (textInput s) (audioBlob s) (diagnosis s) (chatHistory s)
    v (replyAudio s) (isMasteryAchieved s) (isLoading s) (error s)
    (history s) (showHistory s))).
Definition setReplyAudio (v : option Blob.t) : M unit := modify (with_ui (fun s =>
  mkState (image s) (previewUrl s) (textInput s) (audioBlob s) (diagnosis s) (chatHistory s)
    (replyText s) v (isMasteryAchieved s) (isLoading s) (error s)
    (history s) (showHistory s))).
Definition setIsMasteryAchieved (v : bool) : M unit := modify (with_ui (fun s =>
  mkState (image s) (previewUrl s) (textInput s) (audioBlob s) (diagnosis s) (chatHistory s)
    (replyText s) (replyAudio s) v (isLoading s) (error s)
    (history s) (showHistory s))).
Definition setIsLoading (v : bool) : M unit := modify (with_ui (fun s =>
  mkState (image s) (previewUrl s) (textInput s) (audioBlob s) (diagnosis s) (chatHistory s)
    (replyText s) (replyAudio s) (isMasteryAchieved s) v (error s)
    (history s) (showHistory s))).
Definition setError (v : option string) : M unit := modify (with_ui (fun s =>
  mkState (image s) (previewUrl s) (textInput s) (audioBlob s) (diagnosis s) (chatHistory s)
    (replyText s) (replyAudio s) (isMasteryAchieved s) (isLoading s) v
    (history s) (showHistory s))).
Definition setHistory (v : JSON) : M unit := modify (with_ui (fun s =>
  mkState (image s) (previewUrl s) (textInput s) (audioBlob s) (diagnosis s) (chatHistory s)
    (replyText s) (replyAudio s) (isMasteryAchieved s) (isLoading s) (error s)
    v (showHistory s))).
Definition setShowHistory (v : bool) : M unit := modify (with_ui (fun s =>
  mkState (image s) (previewUrl s) (textInput s) (audioBlob s) (diagnosis s) (chatHistory s)
    (replyText s) (replyAudio s) (isMasteryAchieved s) (isLoading s) (error s)
    (history s) v)).

(** ** A JSON codec

    A printer and a reader of compact JSON text over the values above (integer
    numbers, one-byte characters), which gives the host built-ins an instance
    to run the program on. *)

Module Codec.

Definition quote : ascii := "034".
Definition backslash : ascii := "092".

Definition is_ws (c : ascii) : bool :=
  Ascii.eqb c " " || Ascii.eqb c "009" || Ascii.eqb c "010" || Ascii.eqb c "013".

Definition digit (c : ascii) : bool :=
  (48 <=? N_of_ascii c)%N && (N_of_ascii c <=? 57)%N.

Fixpoint skip_ws (s : list ascii) : list ascii :=
  match s with
  | c :: r => if is_ws c then skip_ws r else s
  | [] => []
  end.

Definition starts_with (c : ascii) (s : list ascii) : bool :=
  match s with
  | x :: _ => Ascii.eqb x c
  | [] => false
  end.

Fixpoint span_digits (s : list ascii) : list ascii * list ascii :=
  match s with
  | c :: r => if digit c then let (d, t) := span_digits r in (c :: d, t) else ([], s)
  | [] => ([], [])
  end.

Definition parse_N (s : list ascii) : option (N * list ascii) :=
  let (ds, rest) := span_digits s in
  match ds with
  | [] => None
  | c :: more =>
      if Ascii.eqb c "0" && negb (bool_decide (more = [])) then None
      else match NilEmpty.uint_of_string (string_of_list_ascii ds) with
           | Some u => Some (N.of_uint u, rest)
           | None => None
           end
  end.

Definition parse_number (s : list ascii) : option (Z * list ascii) :=
  match s with
  | c :: r =>
      if Ascii.eqb c "-"
      then match parse_N r with Some (n, t) => Some ((- Z.of_N n)%Z, t) | None => None end
      else match parse_N s with Some (n, t) => Some (Z.of_N n, t) | None => None end
  | [] => None
  end.

Definition hexdigit (d : N) : ascii :=
  if (d <? 10)%N then ascii_of_N (48 + d) else ascii_of_N (87 + d).

Definition hexval (c : ascii) : option N :=
  let n := N_of_ascii c in
  if digit c then Some (n - 48)%N
  else if (97 <=? n)%N && (n <=? 102)%N then Some (n - 87)%N
  else if (65 <=? n)%N && (n <=? 70)%N then Some (n - 55)%N
  else None.

Definition print_char (c : ascii) : list ascii :=
  if Ascii.eqb c quote then [backslash; quote]
  else if Ascii.eqb c backslash then [backslash; backslash]
  else if Ascii.eqb c "008" then [backslash; "b"%char]
  else if Ascii.eqb c "012" then [backslash; "f"%char]
  else if Ascii.eqb c "010" then [backslash; "n"%char]
  else if Ascii.eqb c "013" then [backslash; "r"%char]
  else if Ascii.eqb c "009" then [backslash; "t"%char]
  else if (N_of_ascii c <? 32)%N
       then [backslash; "u"%char; "0"%char; "0"%char;
             hexdigit (N_of_ascii c / 16); hexdigit (N_of_ascii c mod 16)]
       else [c].

Definition print_string (s : string) : list ascii :=
  quote :: concat (map print_char (list_ascii_of_string s)) ++ [quote].

Definition unescape (e : ascii) : option ascii :=
  if Ascii.eqb e quote then Some quote
  else if Ascii.eqb e backslash then Some backslash
  else if Ascii.eqb e "/" then Some "/"%char
  else if Ascii.eqb e "b" then Some "008"%char
  else if Ascii.eqb e "f" then Some "012"%char
  else if Ascii.eqb e "n" then Some "010"%char
  else if Ascii.eqb e "r" then Some "013"%char
  else if Ascii.eqb e "t" then Some "009"%char
  else None.

Definition consr {A} (c : A) (r : option (list A * list A)) : option (list A * list A) :=
  match r with
  | Some (cs, t) => Some (c :: cs, t)
  | None => None
  end.

(** The characters of a string literal, after its opening quote. *)
Fixpoint parse_chars (s : list ascii) : option (list ascii * list ascii) :=
  match s with
  | [] => None
  | c :: r =>
      if Ascii.eqb c quote then Some ([], r)
      else if Ascii.eqb c backslash then
        match r with
        | [] => None
        | e :: r' =>
            if Ascii.eqb e "u" then
              match r' with
              | h3 :: h2 :: h1 :: h0 :: r'' =>
                  match hexval h3, hexval h2, hexval h1, hexval h0 with
                  | Some x3, Some x2, Some x1, Some x0 =>
                      let n := (((x3 * 16 + x2) * 16 + x1) * 16 + x0)%N in
                      if (n <? 256)%N then consr (ascii_of_N n) (parse_chars r'') else None
                  | _, _, _, _ => None
                  end
              | _ => None
              end
            else match unescape e with
                 | Some x => consr x (parse_chars r')
                 | None => None
                 end
        end
      else if (N_of_ascii c <? 32)%N then None
      else consr c (parse_chars r)
  end.

Fixpoint print (v : JSON) : list ascii :=
  match v with
  | JNull => list_ascii_of_string "null"
  | JBool true => list_ascii_of_string "true"
  | JBool false => list_ascii_of_string "false"
  | JNum n => list_ascii_of_string (string_of_Z n)
  | JStr s => print_string s
  | JArr [] => ["["; "]"]%char
  | JArr (x :: xs) =>
      "["%char :: print x ++
        (fix elems (l : list JSON) : list ascii :=
           match l with
           | [] => ["]"%char]
           | y :: ys => ","%char :: print y ++ elems ys
           end) xs
  | JObj [] => ["{"; "}"]%char
  | JObj ((k, x) :: ms) =>
      "{"%char :: print_string k ++ ":"%char :: print x ++
        (fix members (l : list (string * JSON)) : list ascii :=
           match l with
           | [] => ["}"%char]
           | (k', y) :: r => ","%char :: print_string k' ++ ":"%char :: print y ++ members r
           end) ms
  end.

Fixpoint print_elems (l : list JSON) : list ascii :=
  match l with
  | [] => ["]"%char]
  | y :: ys => ","%char :: print y ++ print_elems ys
  end.

Fixpoint print_members (l : list (string * JSON)) : list ascii :=
  match l with
  | [] => ["}"%char]
  | (k, y) :: r => ","%char :: print_string k ++ ":"%char :: print y ++ print_members r
  end.

Definition literal (word : list ascii) (v : JSON) (s : list ascii) : option (JSON * list ascii) :=
  if bool_decide (take (length word) s = word) then Some (v, drop (length word) s) else None.

(** One [name : value] member, the value read by [pv]. *)
Definition parse_member (pv : list ascii -> option (JSON * list ascii)) (s : list ascii)
  : option ((string * JSON) * list ascii) :=
  match skip_ws s with
  | c :: r =>
      if Ascii.eqb c quote then
        match parse_chars r with
        | Some (k, r1) =>
            match skip_ws r1 with
            | c1 :: r2 =>
                if Ascii.eqb c1 ":" then
                  match pv r2 with
                  | Some (v, r3) => Some ((string_of_list_ascii k, v), r3)
                  | None => None
                  end
                else None
            | [] => None
            end
        | None => None
        end
      else None
  | [] => None
  end.

Fixpoint parse_value (fuel : nat) (s : list ascii) {struct fuel} : option (JSON * list ascii) :=
  match fuel with
  | O => None
  | S fuel' =>
      match skip_ws s with
      | [] => None
      | c :: r =>
          if Ascii.eqb c "n" then literal (list_ascii_of_string "ull") JNull r
          else if Ascii.eqb c "t" then literal (list_ascii_of_string "rue") (JBool true) r
          else if Ascii.eqb c "f" then literal (list_ascii_of_string "alse") (JBool false) r
          else if Ascii.eqb c quote then
            match parse_chars r with
            | Some (cs, r1) => Some (JStr (string_of_list_ascii cs), r1)
            | None => None
            end
          else if Ascii.eqb c "[" then
            if starts_with "]" (skip_ws r) then Some (JArr [], tail (skip_ws r))
            else match parse_value fuel' (skip_ws r) with
                 | Some (x, r2) =>
                     match parse_elems fuel' r2 with
                     | Some (xs, r3) => Some (JArr (x :: xs), r3)
                     | None => None
                     end
                 | None => None
                 end
          else if Ascii.eqb c "{" then
            if starts_with "}" (skip_ws r) then Some (JObj [], tail (skip_ws r))
            else match parse_member (parse_value fuel') (skip_ws r) with
                 | Some (m, r2) =>
                     match parse_members fuel' r2 with
                     | Some (ms, r3) => Some (JObj (m :: ms), r3)
                     | None => None
                     end
                 | None => None
                 end
          else match parse_number (c :: r) with
               | Some (n, r1) => Some (JNum n, r1)
               | None => None
               end
      end
  end
with parse_elems (fuel : nat) (s : list ascii) {struct fuel} : option (list JSON * list ascii) :=
  match fuel with
  | O => None
  | S fuel' =>
      match skip_ws s with
      | [] => None
      | c :: r =>
          if Ascii.eqb c "]" then Some ([], r)
          else if Ascii.eqb c "," then
            match parse_value fuel' r with
            | Some (x, r1) =>
                match parse_elems fuel' r1 with
                | Some (xs, r2) => Some (x :: xs, r2)
                | None => None
                end
            | None => None
            end
          else None
      end
  end
with parse_members (fuel : nat) (s : list ascii) {struct fuel}
  : option (list (string * JSON) * list ascii) :=
  match fuel with
  | O => None
  | S fuel' =>
      match skip_ws s with
      | [] => None
      | c :: r =>
          if Ascii.eqb c "}" then Some ([], r)
          else if Ascii.eqb c "," then
            match parse_member (parse_value fuel') r with
            | Some (m, r1) =>
                match parse_members fuel' r1 with
                | Some (ms, r2) => Some (m :: ms, r2)
                | None => None
                end
            | None => None
            end
          else None
      end
  end.

Definition parse (s : string) : option JSON :=
  let l := list_ascii_of_string s in
  match parse_value (S (length l)) l with
  | Some (v, rest) => match skip_ws rest with [] => Some v | _ :: _ => None end
  | None => None
  end.

Definition stringify (v : JSON) : string := string_of_list_ascii (print v).

(** What the proof that the reader inverts the printer is stated with: text
    that does not go on with a digit, the fuel a value needs, and the first
    character of a printed value. *)
Definition nodigit (s : list ascii) : Prop :=
  match s with
  | [] => True
  | c :: _ => digit c = false
  end.

Fixpoint size (v : JSON) : nat :=
  match v with
  | JArr l => S ((fix go (l : list JSON) : nat :=
                    match l with [] => 1 | x :: r => size x + go r end) l)
  | JObj ms => S ((fix go (l : list (string * JSON)) : nat :=
                     match l with [] => 1 | m :: r => size (snd m) + go r end) ms)
  | _ => 1
  end.

Fixpoint sizes (l : list JSON) : nat :=
  match l with [] => 1 | x :: r => size x + sizes r end.

Fixpoint msizes (l : list (string * JSON)) : nat :=
  match l with [] => 1 | m :: r => size (snd m) + msizes r end.

(** The first character of a printed value opens a value. *)
Definition opens (c : ascii) : Prop :=
  is_ws c = false /\ Ascii.eqb c "]" = false /\ Ascii.eqb c "}" = false.

Definition reads_back (v : JSON) : Prop :=
  forall fuel rest, size v <= fuel -> nodigit rest ->
  parse_value fuel (print v ++ rest) = Some (v, rest).

End Codec.

#[export] Instance codec_host : Host :=
  {| JSON_parse := Codec.parse; JSON_stringify := Codec.stringify |}.

(** ** The history store ([services/historyService.ts]) *)

Definition HISTORY_KEY : string := "omni_tutor_history".

(** [getHistory]: the stored text parsed, or the empty array when nothing (or
    the empty text) is stored or the text does not parse.  The parsed value is
    returned as it is. *)
Definition getHistory {host : Host} : M JSON :=
  try_catch
    (stored <- getItem HISTORY_KEY ;;
     match stored with
     | Some blob =>
         if truthy_string blob
         then match JSON_parse blob with
              | Some v => ret v
              | None => throw (SyntaxError "Unexpected token in JSON")
              end
         else ret (JArr [])
     | None => ret (JArr [])
     end)
    (fun e => ret (JArr [])).

(** [saveToHistory]: the new item is the spread of [result] followed by the
    context, the id (clock in base 36, then the random digits) and the
    timestamp; it is put before the elements of the history read, the first 50
    are kept and written back. *)
Definition saveToHistory {host : Host} (env : Env) (result : JSON) (userContext : string)
  : M JSON :=
  history <- getHistory ;;
  now_id <- Date_now env ;;
  rnd <- Math_random_toString36 env ;;
  now_ts <- Date_now env ;;
  let newItem :=
    JObj (own_props result ++
          [("user_context", JStr userContext);
           ("id", JStr (toString36 now_id +:+ substr 2 rnd));
           ("timestamp", JNum now_ts)]) in
  older <- lift (iterate "history" history) ;;
  let updated := take 50 (newItem :: older) in
  setItem HISTORY_KEY (JSON_stringify (JArr updated)) ;;
  ret newItem.

Definition clearHistory : M unit := removeItem HISTORY_KEY.

(** A run of [saveToHistory] calls, one per (result, context) pair, giving the
    items created in call order. *)
Fixpoint saveAll {host : Host} (env : Env) (calls : list (JSON * string)) : M (list JSON) :=
  match calls with
  | [] => ret []
  | (result, userContext) :: rest =>
      item <- saveToHistory env result userContext ;;
      items <- saveAll env rest ;;
      ret (item :: items)
  end.

(** ** The model gateway ([services/geminiService.ts]) *)

Definition diagnosisSchema : Schema :=
  SObject
    [("stage", SString (Some ["INITIAL_DIAGNOSIS"]));
     ("conceptual_misunderstanding", SString None);
     ("new_practice_question",
      SObject [("topic", SString None); ("question_text", SString None)]
              ["topic"; "question_text"]);
     ("tutor_feedback", SString None);
     ("next_instruction", SString None)]
    ["stage"; "conceptual_misunderstanding"; "new_practice_question"; "tutor_feedback";
     "next_instruction"].

Definition feedbackSchema : Schema :=
  SObject
    [("stage", SString (Some ["CONVERSATIONAL_FEEDBACK"]));
     ("evaluation_result", SString (Some ["CORRECT"; "CONCEPT_ERROR"; "CALCULATION_ERROR"]));
     ("feedback_message", SString None);
     ("dialogue_action", SString (Some ["CONTINUE"; "MASTERY_ACHIEVED"]));
     ("next_instruction", SString None)]
    ["stage"; "evaluation_result"; "feedback_message"; "dialogue_action"; "next_instruction"].

Definition missingKey : JsError :=
  Error "API Key is missing. Please set process.env.API_KEY.".

Definition getAIClient (env : Env) : M string :=
  match API_KEY env with
  | Some apiKey => if truthy_string apiKey then ret apiKey else throw missingKey
  | None => throw missingKey
  end.

Definition audioPart (env : Env) (audioBlob : option Blob.t) : M (list Part) :=
  match audioBlob with
  | Some blob =>
      audioBase64 <- lift (blobToGenerativePart env blob) ;;
      ret [inlineData "audio/wav" audioBase64]
  | None => ret []
  end.

Definition imagePart (env : Env) (imageFile : option File.t) : M (list Part) :=
  match imageFile with
  | Some file =>
      imageBase64 <- lift (fileToGenerativePart env file) ;;
      ret [inlineData (File.type file) imageBase64]
  | None => ret []
  end.

(** [response.text] parsed: no text (or the empty text) and text that is not
    JSON both throw. *)
Definition parseResponse {host : Host} (response : Response) : M JSON :=
  match response_text response with
  | Some textResponse =>
      if truthy_string textResponse
      then match JSON_parse textResponse with
           | Some data => ret data
           | None => throw (SyntaxError "Unexpected token in JSON")
           end
      else throw (Error "No response from Gemini.")
  | None => throw (Error "No response from Gemini.")
  end.

Definition GatewayError1 : JsError := Error "Failed to diagnose homework.".
Definition GatewayError2 : JsError := Error "Failed to evaluate answer.".

(** Stage 1.  The client and the parts are built outside the [try]; the
    request, the parse and the two compatibility fields are inside it, and
    whatever is thrown there is replaced by the one stage-1 error. *)
Definition analyzeHomework {host : Host} (env : Env)
    (imageFile : option File.t) (textContext : string) (audioBlob : option Blob.t) : M JSON :=
  ai <- getAIClient env ;;
  let promptText := DiagnosisPrompt (or_string textContext "No specific text provided.") in
  imageParts <- imagePart env imageFile ;;
  audioParts <- audioPart env audioBlob ;;
  let parts := [text promptText] ++ imageParts ++ audioParts in
  try_catch
    (response <- generateContent env
       {| model := "gemini-2.5-flash"; parts := parts;
          responseMimeType := "application/json"; responseSchema := diagnosisSchema |} ;;
     data <- parseResponse response ;;
     data1 <- lift (assign_prop data "diagnosed_error_step" (JStr "Concept Error")) ;;
     data2 <- lift (assign_prop data1 "status" (JStr "Diagnosis")) ;;
     ret data2)
    (fun error => throw GatewayError1).

Definition newline : string := String "010" EmptyString.

Definition historyLine (msg : ChatMessage) : string :=
  (match role msg with user => "Student" | tutor => "Tutor" end)
  +:+ ": " +:+ ToString_value (content msg).

(** Stage 2. *)
Definition evaluatePracticeResponse {host : Host} (env : Env)
    (topic question : value) (chatHistory : list ChatMessage)
    (currentInput : string) (audioBlob : option Blob.t) : M JSON :=
  ai <- getAIClient env ;;
  let historyStr := join newline (map historyLine chatHistory) in
  let promptText :=
    FeedbackPrompt (ToString_value topic) (ToString_value question) historyStr
                   (or_string currentInput "(Audio Input Provided)") in
  audioParts <- audioPart env audioBlob ;;
  let parts := [text promptText] ++ audioParts in
  try_catch
    (response <- generateContent env
       {| model := "gemini-2.5-flash"; parts := parts;
          responseMimeType := "application/json"; responseSchema := feedbackSchema |} ;;
     parseResponse response)
    (fun error => throw GatewayError2).

(** ** The session ([App.tsx]) *)

Definition MAX_FILE_SIZE_MB : N := 10.
Definition MAX_FILE_SIZE_BYTES : N := MAX_FILE_SIZE_MB * 1024 * 1024.
Definition ALLOWED_TYPES : list string := ["image/jpeg"; "image/png"; "image/webp"].

(** [ALLOWED_TYPES.includes(t)]. *)
Definition includes (l : list string) (t : string) : bool := existsb (String.eqb t) l.

(** [validateFile]: the message of the rejection, or [None] for [null]. *)
Definition validateFile (file : File.t) : option string :=
  if negb (includes ALLOWED_TYPES (File.type file))
  then Some "Invalid file format. Please upload a JPG, PNG, or WebP image."
  else if (MAX_FILE_SIZE_BYTES <? File.size file)%N
  then Some ("File size exceeds the " +:+ string_of_N MAX_FILE_SIZE_MB
             +:+ "MB limit. Please upload a smaller image.")
  else None.

(** [if (validationError)]: a message that is a non-empty string. *)
Definition rejected (validationError : option string) : option string :=
  match validationError with
  | Some m => if truthy_string m then Some m else None
  | None => None
  end.

(** What [handleImageUpload] and [handleDrop] do with an accepted file. *)
Definition acceptFile (env : Env) (file : File.t) : M unit :=
  setImage (Some file) ;;
  setPreviewUrl (Some (createObjectURL env file)) ;;
  setDiagnosis JNull ;;
  setChatHistory (fun _ => []) ;;
  setReplyText "" ;;
  setReplyAudio None ;;
  setIsMasteryAchieved false ;;
  setError None.

(** [handleImageUpload], on the first file of the input's selection if there
    is one. *)
Definition handleImageUpload (env : Env) (files0 : option File.t) : M unit :=
  match files0 with
  | Some file =>
      match rejected (validateFile file) with
      | Some validationError =>
          (* the input element is also emptied, which is no part of the state *)
          setError (Some validationError)
      | None => acceptFile env file
      end
  | None => ret tt
  end.

Definition handleDrop (env : Env) (files0 : option File.t) : M unit :=
  match files0 with
  | Some file =>
      match rejected (validateFile file) with
      | Some validationError => setError (Some validationError)
      | None => acceptFile env file
      end
  | None => ret tt
  end.

Definition INFO : value := Some (JStr "INFO").

(** [handleInitialAnalysis], run in the render whose state is [s]: what the
    handler reads is [s], what it sets goes to the world. *)
Definition handleInitialAnalysis {host : Host} (env : Env) (s : State) : M unit :=
  match image s with
  | None => setError (Some "Please upload an image of your homework first.")
  | Some _ =>
      setIsLoading true ;;
      setError None ;;
      try_finally
        (try_catch
           (data <- analyzeHomework env (image s) (textInput s) (audioBlob s) ;;
            setDiagnosis data ;;
            next_instruction <- lift (get_prop (Some data) "next_instruction") ;;
            now <- Date_now env ;;
            setChatHistory (fun _ =>
              [{| role := tutor; content := next_instruction;
                  timestamp := Some (JNum now); feedbackType := INFO |}]) ;;
            saveToHistory env data (textInput s) ;;
            stored <- getHistory ;;
            setHistory stored ;;
            setReplyText "" ;;
            setReplyAudio None)
           (fun err =>
              setError (Some (or_string (message err) "An unexpected error occurred."))))
        (setIsLoading false)
  end.

(** The guard of [handlePracticeReply]:
    [(!replyText && !replyAudio) || !diagnosis]. *)
Definition nothingToSend (s : State) : bool :=
  (negb (truthy_string (replyText s)) && negb (bool_decide (is_Some (replyAudio s))))
  || negb (truthy (diagnosis s)).

Definition userMessage (s : State) (now : Z) : ChatMessage :=
  {| role := user;
     content := Some (JStr (or_string (replyText s) "(Audio Response)"));
     timestamp := Some (JNum now);
     feedbackType := undefined |}.

(** [v === 'MASTERY_ACHIEVED']. *)
Definition is_string (v : value) (t : string) : bool :=
  match v with
  | Some (JStr x) => String.eqb x t
  | _ => false
  end.

(** The optimistic update of [handlePracticeReply]: everything before the
    [try], which runs before the gateway is called. *)
Definition optimisticUpdate (env : Env) (s : State) : M ChatMessage :=
  now <- Date_now env ;;
  let userMsg := userMessage s now in
  setChatHistory (fun _ => chatHistory s ++ [userMsg]) ;;
  setReplyText "" ;;
  setReplyAudio None ;;
  setIsLoading true ;;
  ret userMsg.

(** The tutor's turn: the gateway is asked and its answer appended. *)
Definition tutorTurn {host : Host} (env : Env) (s : State) (userMsg : ChatMessage) : M unit :=
  question0 <- lift (get_prop (Some (diagnosis s)) "new_practice_question") ;;
  topic <- lift (get_prop question0 "topic") ;;
  question1 <- lift (get_prop (Some (diagnosis s)) "new_practice_question") ;;
  question_text <- lift (get_prop question1 "question_text") ;;
  feedback <- evaluatePracticeResponse env topic question_text
                (chatHistory s ++ [userMsg])
                (or_string (replyText s) "(Audio Response)") (replyAudio s) ;;
  feedback_message <- lift (get_prop (Some feedback) "feedback_message") ;;
  next_instruction <- lift (get_prop (Some feedback) "next_instruction") ;;
  now <- Date_now env ;;
  evaluation_result <- lift (get_prop (Some feedback) "evaluation_result") ;;
  let tutorMsg :=
    {| role := tutor;
       content := Some (JStr (ToString_value feedback_message +:+ " "
                              +:+ ToString_value next_instruction));
       timestamp := Some (JNum now);
       feedbackType := evaluation_result |} in
  setChatHistory (fun prev => prev ++ [tutorMsg]) ;;
  dialogue_action <- lift (get_prop (Some feedback) "dialogue_action") ;;
  if is_string dialogue_action "MASTERY_ACHIEVED" then setIsMasteryAchieved true else ret tt.

Definition handlePracticeReply {host : Host} (env : Env) (s : State) : M unit :=
  if nothingToSend s then ret tt
  else
    userMsg <- optimisticUpdate env s ;;
    try_finally
      (try_catch
         (tutorTurn env s userMsg)
         (fun err => setError (Some (or_string (message err) "Failed to get feedback."))))
      (setIsLoading false).

Definition handleHistorySelect (item : JSON) : M unit :=
  setDiagnosis item ;;
  setShowHistory false ;;
  next_instruction <- lift (get_prop (Some item) "next_instruction") ;;
  item_timestamp <- lift (get_prop (Some item) "timestamp") ;;
  setChatHistory (fun _ =>
    [{| role := tutor; content := next_instruction;
        timestamp := item_timestamp; feedbackType := INFO |}]) ;;
  setImage None ;;
  setPreviewUrl None ;;
  setAudioBlob None ;;
  setReplyText "" ;;
  setReplyAudio None ;;
  setError None ;;
  setIsMasteryAchieved false.

(** [handleClearHistory], with the user's answer to the confirmation. *)
Definition handleClearHistory (confirmed : bool) : M unit :=
  if confirmed then clearHistory ;; setHistory (JArr []) else ret tt.

(** The click handler shared by the Change button of the image card and the
    Upload New Homework button of the mastery panel (the file dialog it opens
    answers through [handleImageUpload]). *)
Definition startOver : M unit :=
  setImage None ;;
  setPreviewUrl None ;;
  setDiagnosis JNull ;;
  setChatHistory (fun _ => []).

(** *** The rendered controls

    An event reaches its handler only through a control that the current
    render shows (and, for a button, has not disabled). *)
Inductive Event : Type :=
| ClickLogo
| ClickHistoryToggle
| ClickClearHistory (confirmed : bool)
| ClickStartNewAnalysis
| ClickHistoryItem (i : nat)
| ClickChange
| DropFile (files0 : option File.t)
| ChooseFile (files0 : option File.t)
| TypeThought (txt : string)
| ThoughtAudioReady (blob : option Blob.t)
| ClickStartDiagnosis
| ClickUploadNewHomework
| TypeReply (txt : string)
| KeyDownReply (key : string) (shiftKey : bool)
| ReplyAudioReady (blob : option Blob.t)
| ClickReply.

(** [history.length], where the value has one. *)
Definition history_length (h : JSON) : option nat :=
  match h with
  | JArr l => Some (length l)
  | JStr t => Some (String.length t)
  | _ => None
  end.

(** [image || previewUrl]. *)
Definition hasImage (s : State) : bool :=
  bool_decide (is_Some (image s))
  || match previewUrl s with Some u => truthy_string u | None => false end.

(** The reply form: shown in the main view once there is a diagnosis, in place
    of the mastery panel. *)
Definition replyFormShown (s : State) : bool :=
  negb (showHistory s) && truthy (diagnosis s) && negb (isMasteryAchieved s).

Definition rendered (s : State) (e : Event) : bool :=
  match e with
  | ClickLogo | ClickHistoryToggle => true
  | ClickClearHistory _ =>
      showHistory s && match history_length (history s) with
                       | Some n => bool_decide (0 < n)
                       | None => false
                       end
  | ClickStartNewAnalysis =>
      showHistory s && bool_decide (history_length (history s) = Some 0)
  | ClickHistoryItem i =>
      showHistory s && match history s with
                       | JArr l => bool_decide (is_Some (l !! i))
                       | _ => false
                       end
  | ClickChange => negb (showHistory s) && hasImage s
  | DropFile _ => negb (showHistory s) && negb (hasImage s)
  | ChooseFile _ => negb (showHistory s)
  | TypeThought _ | ThoughtAudioReady _ => negb (showHistory s) && negb (truthy (diagnosis s))
  | ClickStartDiagnosis =>
      negb (showHistory s) && negb (truthy (diagnosis s))
      && negb (isLoading s || negb (bool_decide (is_Some (image s))))
  | ClickUploadNewHomework =>
      negb (showHistory s) && truthy (diagnosis s) && isMasteryAchieved s
  | TypeReply _ | KeyDownReply _ _ | ReplyAudioReady _ => replyFormShown s
  | ClickReply =>
      replyFormShown s
      && negb (isLoading s
               || (negb (truthy_string (replyText s))
                   && negb (bool_decide (is_Some (replyAudio s)))))
  end.

Definition handler {host : Host} (env : Env) (s : State) (e : Event) : M unit :=
  match e with
  | ClickLogo => setShowHistory false
  | ClickHistoryToggle => setShowHistory (negb (showHistory s))
  | ClickClearHistory confirmed => handleClearHistory confirmed
  | ClickStartNewAnalysis => setShowHistory false
  | ClickHistoryItem i =>
      match history s with
      | JArr l => match l !! i with Some item => handleHistorySelect item | None => ret tt end
      | _ => ret tt
      end
  | ClickChange | ClickUploadNewHomework => startOver
  | DropFile files0 => handleDrop env files0
  | ChooseFile files0 => handleImageUpload env files0
  | TypeThought txt => setTextInput txt
  | ThoughtAudioReady blob => setAudioBlob blob
  | ClickStartDiagnosis => handleInitialAnalysis env s
  | TypeReply txt => setReplyText txt
  | KeyDownReply key shiftKey =>
      if String.eqb key "Enter" && negb shiftKey then handlePracticeReply env s else ret tt
  | ReplyAudioReady blob => setReplyAudio blob
  | ClickReply => handlePracticeReply env s
  end.

(** One event on the page: nothing happens unless its control is rendered. *)
Definition dispatch {host : Host} (env : Env) (e : Event) : M unit :=
  fun w => if rendered (ui w) e then handler env (ui w) e w else (Ok tt, w).

(** The three fields that make a session. *)
Definition session (s : State) : JSON * list ChatMessage * bool :=
  (diagnosis s, chatHistory s, isMasteryAchieved s).

(** ** Notions the statements are written with *)

(** The item that [saveToHistory] makes when the clock and the random source
    have been read [t] times before. *)
Definition itemAt (env : Env) (result : JSON) (userContext : string) (t : nat) : JSON :=
  JObj (own_props result ++
        [("user_context", JStr userContext);
         ("id", JStr (toString36 (clock env t) +:+ substr 2 (random36 env (S t))));
         ("timestamp", JNum (clock env (S (S t))))]).

(** The world after one [saveToHistory] that found the array [l]. *)
Definition saved {host : Host} (env : Env) (result : JSON) (userContext : string)
    (l : list JSON) (w : World) : World :=
  with_storage
    (insert HISTORY_KEY
       (JSON_stringify (JArr (take 50 (itemAt env result userContext (ticks w) :: l)))))
    (tick (tick (tick w))).

(** A world with nothing stored, nothing sent and the initial state. *)
Definition freshWorld : World :=
  {| localStorage := ∅; requests := []; ticks := 0; ui := initialState |}.

(** An environment whose service answers every request with the text [answer]. *)
Definition answering (answer : string) : Env :=
  {| API_KEY := Some "key";
     clock := fun i => (1700000000000 + Z.of_nat i)%Z;
     random36 := fun _ => "0.4fzyo82mvyr";
     service := fun _ _ => Ok {| response_text := Some answer |};
     fileToGenerativePart := fun f => Ok (File.data f);
     blobToGenerativePart := fun b => Ok (Blob.data b);
     createObjectURL := fun f => "blob:" +:+ File.name f |}.

(** A world whose store holds the text [blob]. *)
Definition storing (blob : string) : World :=
  {| localStorage := {[ HISTORY_KEY := blob ]}; requests := []; ticks := 0;
     ui := initialState |}.

(** The five fields the stage-1 schema requires. *)
Definition stage1_fields : list string :=
  ["stage"; "conceptual_misunderstanding"; "new_practice_question"; "tutor_feedback";
   "next_instruction"].

(** An object that has all five. *)
Definition complete (v : JSON) : bool := forallb (fun k => has_field k v) stage1_fields.

(** The two fields [analyzeHomework] adds to what it parsed. *)
Definition compatibility : list (string * JSON) :=
  [("diagnosed_error_step", JStr "Concept Error"); ("status", JStr "Diagnosis")].

(** The request of stage 1 with the given prompt text and payload parts. *)
Definition diagnosisRequest (textContext : string) (payload : list Part) : Request :=
  {| model := "gemini-2.5-flash";
     parts := [text (DiagnosisPrompt (or_string textContext "No specific text provided."))]
              ++ payload;
     responseMimeType := "application/json";
     responseSchema := diagnosisSchema |}.

(** A 2 MB JPEG and a PDF. *)
Definition homeworkPhoto : File.t :=
  File.make "homework.jpg" "image/jpeg" 2097152 "/9j/4AAQ".
Definition homeworkPdf : File.t :=
  File.make "homework.pdf" "application/pdf" 2097152 "JVBERi0x".

(** [v.k] where the read does not throw. *)
Definition field (v : JSON) (k : string) : value :=
  match get_prop (Some v) k with
  | Ok x => x
  | Throw _ => undefined
  end.

(** The tutor message [handlePracticeReply] builds from a feedback. *)
Definition tutorMessage (feedback : JSON) (now : Z) : ChatMessage :=
  {| role := tutor;
     content := Some (JStr (ToString_value (field feedback "feedback_message") +:+ " "
                            +:+ ToString_value (field feedback "next_instruction")));
     timestamp := Some (JNum now);
     feedbackType := field feedback "evaluation_result" |}.

(** The state [MasteryAchieved] of the session. *)
Definition MasteryAchieved (s : State) : bool :=
  truthy (diagnosis s) && isMasteryAchieved s.

(** The events that start new homework: the two buttons that clear the
    session and open the file dialog, and a file chosen or dropped. *)
Definition startsNewHomework (e : Event) : bool :=
  match e with
  | ClickUploadNewHomework | ClickChange | ChooseFile (Some _) | DropFile (Some _) => true
  | _ => false
  end.

(** The reply events: the Reply button and a key pressed in the reply box. *)
Definition submitsReply (e : Event) : bool :=
  match e with
  | ClickReply | KeyDownReply _ _ => true
  | _ => false
  end.

(** A diagnosis as stage 1 returns it, and a session opened on it in which
    the student has typed [reply]. *)
Definition sampleDiagnosis : JSON :=
  JObj [("stage", JStr "INITIAL_DIAGNOSIS");
        ("conceptual_misunderstanding", JStr "Mass was taken for weight.");
        ("new_practice_question",
         JObj [("topic", JStr "Newton's second law");
               ("question_text", JStr "A 2 kg cart is pushed with 20 N. Find a.")]);
        ("tutor_feedback", JStr "Good start.");
        ("next_instruction", JStr "Write the law you will use.");
        ("diagnosed_error_step", JStr "Concept Error");
        ("status", JStr "Diagnosis")].

Definition openingMessage : ChatMessage :=
  {| role := tutor; content := Some (JStr "Write the law you will use.");
     timestamp := Some (JNum 1700000000000); feedbackType := INFO |}.

Definition activeSession (reply : string) : World :=
  {| localStorage := ∅; requests := []; ticks := 0;
     ui := {| image := Some homeworkPhoto; previewUrl := Some "blob:homework.jpg";
              textInput := ""; audioBlob := None;
              diagnosis := sampleDiagnosis; chatHistory := [openingMessage];
              replyText := reply; replyAudio := None;
              isMasteryAchieved := false; isLoading := false; error := None;
              history := JArr [sampleDiagnosis]; showHistory := false |} |}.

Definition masteryFeedback : JSON :=
  JObj [("stage", JStr "CONVERSATIONAL_FEEDBACK");
        ("evaluation_result", JStr "CORRECT");
        ("feedback_message", JStr "Exactly.");
        ("dialogue_action", JStr "MASTERY_ACHIEVED");
        ("next_instruction", JStr "You have mastered this.")].

(** An environment whose service fails every request. *)
Definition unreachable : Env :=
  {| API_KEY := Some "key";
     clock := fun i => (1700000000000 + Z.of_nat i)%Z;
     random36 := fun _ => "0.4fzyo82mvyr";
     service := fun _ _ => Throw (Error "fetch failed");
     fileToGenerativePart := fun f => Ok (File.data f);
     blobToGenerativePart := fun b => Ok (Blob.data b);
     createObjectURL := fun f => "blob:" +:+ File.name f |}.

(** The answer of the service that yields [sampleDiagnosis], and a world with
    the photo chosen and nothing diagnosed yet. *)
Definition stage1Answer : JSON :=
  JObj [("stage", JStr "INITIAL_DIAGNOSIS");
        ("conceptual_misunderstanding", JStr "Mass was taken for weight.");
        ("new_practice_question",
         JObj [("topic", JStr "Newton's second law");
               ("question_text", JStr "A 2 kg cart is pushed with 20 N. Find a.")]);
        ("tutor_feedback", JStr "Good start.");
        ("next_instruction", JStr "Write the law you will use.")].

Definition readyToDiagnose : World :=
  {| localStorage := ∅; requests := []; ticks := 0;
     ui := {| image := Some homeworkPhoto; previewUrl := Some "blob:homework.jpg";
              textInput := ""; audioBlob := None;
              diagnosis := JNull; chatHistory := [];
              replyText := ""; replyAudio := None;
              isMasteryAchieved := false; isLoading := false; error := None;
              history := JArr []; showHistory := false |} |}.

(** The world in which [handleInitialAnalysis] calls the gateway: loading set,
    error cleared. *)
Definition began (w : World) : World := snd ((setIsLoading true ;; setError None) w).

(** A mastered session: the transcript of a finished practice, the flag set;
    shown in the main view or with the history view open. *)
Definition masteredSession (historyOpen : bool) : World :=
  {| localStorage := ∅; requests := []; ticks := 0;
     ui := {| image := Some homeworkPhoto; previewUrl := Some "blob:homework.jpg";
              textInput := ""; audioBlob := None;
              diagnosis := sampleDiagnosis;
              chatHistory := [openingMessage;
                              userMessage (ui (activeSession "F = ma, so a = 10")) 1700000000001;
                              tutorMessage masteryFeedback 1700000000002];
              replyText := "once more"; replyAudio := None;
              isMasteryAchieved := true; isLoading := false; error := None;
              history := JArr [sampleDiagnosis]; showHistory := historyOpen |} |}.

(** ** Notions for the further properties *)

(** The request of stage 2 for the given question, transcript, input and
    audio part. *)
Definition feedbackRequest (topic question : value) (chatHistory : list ChatMessage)
    (currentInput : string) (audioParts : list Part) : Request :=
  {| model := "gemini-2.5-flash";
     parts := [text (FeedbackPrompt (ToString_value topic) (ToString_value question)
                       (join newline (map historyLine chatHistory))
                       (or_string currentInput "(Audio Input Provided)"))]
              ++ audioParts;
     responseMimeType := "application/json";
     responseSchema := feedbackSchema |}.


(** A value on which a property can be set. *)
Definition isObject (v : JSON) : bool :=
  match v with
  | JArr _ | JObj _ => true
  | JNull | JBool _ | JNum _ | JStr _ => false
  end.

(** An environment without the credential, and one whose encoders fail. *)
Definition keyless : Env :=
  {| API_KEY := None;
     clock := fun i => (1700000000000 + Z.of_nat i)%Z;
     random36 := fun _ => "0.4fzyo82mvyr";
     service := fun _ _ => Ok {| response_text := Some "{}" |};
     fileToGenerativePart := fun f => Ok (File.data f);
     blobToGenerativePart := fun b => Ok (Blob.data b);
     createObjectURL := fun f => "blob:" +:+ File.name f |}.

Definition unreadableMedia : Env :=
  {| API_KEY := Some "key";
     clock := fun i => (1700000000000 + Z.of_nat i)%Z;
     random36 := fun _ => "0.4fzyo82mvyr";
     service := fun _ _ => Ok {| response_text := Some "{}" |};
     fileToGenerativePart := fun _ => Throw (Error "read failed");
     blobToGenerativePart := fun _ => Throw (Error "read failed");
     createObjectURL := fun f => "blob:" +:+ File.name f |}.

Definition voiceNote : Blob.t := Blob.make "audio/webm" "GkXfo59C".

(** A run of events on the page, one after the other. *)
Fixpoint run {host : Host} (env : Env) (events : list Event) (w : World) : World :=
  match events with
  | [] => w
  | e :: rest => run env rest (snd (dispatch env e w))
  end.

(** While there is a diagnosis, the transcript starts with the tutor's message
    that carries its [next_instruction]. *)
Definition opensWithInstruction (s : State) : Prop :=
  truthy (diagnosis s) = true ->
  exists m rest,
    chatHistory s = m :: rest /\ role m = tutor
    /\ content m = field (diagnosis s) "next_instruction".

(** A stage sends one request or none. *)
Definition oneMore (before after : list Request) : Prop :=
  after = before \/ exists q, after = before ++ [q].

(** What one event can do to the world, by kind: nothing to the session (at
    most the history is cleared); the session is dropped; a stored diagnosis
    is loaded; a diagnosis is asked for; a reply is sent. *)
Definition quietStep (e : Event) (w w' : World) : Prop :=
  requests w' = requests w /\ session (ui w') = session (ui w)
  /\ isLoading (ui w') = isLoading (ui w)
  /\ (localStorage w' = localStorage w \/ exists c, e = ClickClearHistory c).

Definition resetStep (w w' : World) : Prop :=
  diagnosis (ui w') = JNull /\ requests w' = requests w
  /\ localStorage w' = localStorage w /\ isLoading (ui w') = isLoading (ui w)
  /\ (isMasteryAchieved (ui w') = false
      \/ isMasteryAchieved (ui w') = isMasteryAchieved (ui w)).

Definition loadStep (w w' : World) : Prop :=
  (exists m, chatHistory (ui w') = [m] /\ role m = tutor
             /\ content m = field (diagnosis (ui w')) "next_instruction")
  /\ requests w' = requests w /\ localStorage w' = localStorage w
  /\ isLoading (ui w') = isLoading (ui w) /\ isMasteryAchieved (ui w') = false.

Definition diagnoseStep (w w' : World) : Prop :=
  isLoading (ui w') = false
  /\ oneMore (requests w) (requests w')
  /\ isMasteryAchieved (ui w') = isMasteryAchieved (ui w)
  /\ ((session (ui w') = session (ui w) /\ localStorage w' = localStorage w
       /\ history (ui w') = history (ui w))
      \/ exists ms m,
           diagnosis (ui w') = JObj ms /\ chatHistory (ui w') = [m]
           /\ role m = tutor /\ content m = own "next_instruction" ms).

Definition replyStep (env : Env) (w w' : World) : Prop :=
  exists extra,
    chatHistory (ui w')
    = chatHistory (ui w) ++ userMessage (ui w) (clock env (ticks w)) :: extra
    /\ (extra = [] \/ exists m, extra = [m] /\ role m = tutor)
    /\ diagnosis (ui w') = diagnosis (ui w)
    /\ isLoading (ui w') = false
    /\ localStorage w' = localStorage w
    /\ oneMore (requests w) (requests w')
    /\ (isMasteryAchieved (ui w') = isMasteryAchieved (ui w)
        \/ (isMasteryAchieved (ui w') = true /\ extra <> [])).

(** The events that may call the gateway. *)
Definition callsGateway (e : Event) : bool :=
  match e with
  | ClickStartDiagnosis | ClickReply | KeyDownReply _ _ => true
  | _ => false
  end.

(** A whole visit: the photo is chosen, diagnosed, and a reply is sent. *)
Definition visit : list Event :=
  [ChooseFile (Some homeworkPhoto); TypeThought "I used the weight.";
   ClickStartDiagnosis; TypeReply "F = ma, so a = 10"; ClickReply].

(** A session on the diagnosis that stage 1 returns for the answer [{}]: it
    has the two fields stage 1 adds and no practice question. *)
Definition questionless (reply : string) : World :=
  {| localStorage := ∅; requests := []; ticks := 0;
     ui := {| image := Some homeworkPhoto; previewUrl := Some "blob:homework.jpg";
              textInput := ""; audioBlob := None;
              diagnosis := JObj compatibility; chatHistory := [];
              replyText := reply; replyAudio := None;
              isMasteryAchieved := false; isLoading := false; error := None;
              history := JArr []; showHistory := false |} |}.

(** ** The history view and the effect of the first render ([App.tsx])

    [useEffect(() => { setHistory(getHistory()); }, [])]. *)
Definition mountEffect {host : Host} : M unit :=
  stored <- getHistory ;;
  setHistory stored.

(** The page after a reload: the state is the initial one, local storage is
    what it was. *)
Definition reloaded (w : World) : World := with_ui (fun _ => initialState) w.

Definition andThen {A B} (r : Result A) (k : A -> Result B) : Result B :=
  match r with
  | Ok a => k a
  | Throw e => Throw e
  end.

(** [l.map(f)], which stops at the first call that throws. *)
Fixpoint mapResult {A B} (f : A -> Result B) (l : list A) : Result (list B) :=
  match l with
  | [] => Ok []
  | x :: r => andThen (f x) (fun y => andThen (mapResult f r) (fun ys => Ok (y :: ys)))
  end.

(** [a || d] on a value and a string. *)
Definition or_value (a : value) (d : string) : JSON :=
  match a with
  | Some x => if truthy x then x else JStr d
  | None => JStr d
  end.

(** One card of the history view, as the body of [history.map] evaluates it:
    the key, the timestamp handed to [formatDate] (whose text depends on the
    locale and is left out), the subject or its default, the topic and the
    misunderstanding.  The member names read here are, like those of
    [get_prop], no index, not [length] and not inherited. *)
Record Card : Type := mkCard {
  card_key : value;
  card_timestamp : value;
  card_subject : JSON;
  card_topic : value;
  card_misunderstanding : value
}.

Definition historyCard (item : JSON) : Result Card :=
  andThen (get_prop (Some item) "id") (fun id =>
  andThen (get_prop (Some item) "timestamp") (fun timestamp =>
  andThen (get_prop (Some item) "new_practice_question") (fun question0 =>
  andThen (get_prop question0 "subject") (fun subject =>
  andThen (get_prop (Some item) "new_practice_question") (fun question1 =>
  andThen (get_prop question1 "topic") (fun topic =>
  andThen (get_prop (Some item) "conceptual_misunderstanding") (fun misunderstanding =>
  Ok (mkCard id timestamp (or_value subject "Topic") topic misunderstanding)))))))).

(** The history view: [history.length] is read first (it throws on [null]);
    a length of 0 shows the empty state; otherwise [history.map] is called,
    which only an array has. *)
Definition historyView (history : JSON) : Result (list Card) :=
  match history with
  | JNull => Throw (TypeError "Cannot read properties of null (reading 'length')")
  | JArr l => mapResult historyCard l
  | JStr t =>
      if String.eqb t "" then Ok []
      else Throw (TypeError "history.map is not a function")
  | JBool _ | JNum _ | JObj _ => Throw (TypeError "history.map is not a function")
  end.


(** ** The recorder ([AudioRecorder.tsx])

    [formatTime], on the whole number of seconds that the recorder counts. *)
Definition formatTime (seconds : N) : string :=
  let mins := (seconds / 60)%N in
  let secs := (seconds mod 60)%N in
  string_of_N mins +:+ ":" +:+ (if (secs <? 10)%N then "0" else "") +:+ string_of_N secs.

(** The seconds below 60, for case analyses by computation. *)
Definition secondsOfMinute : list N := map N.of_nat (seq 0 60).

(** * Properties *)

(** ** The codec reads back what it prints *)

Module CodecFacts.
Import Codec.

Lemma parse_chars_print_char (c : ascii) (t : list ascii) :
  parse_chars (print_char c ++ t) = consr c (parse_chars t).
Proof.
  destruct c as [[] [] [] [] [] [] [] []]; reflexivity.
Qed.

Lemma parse_chars_print (cs t : list ascii) :
  parse_chars (concat (map print_char cs) ++ quote :: t) = Some (cs, t).
Proof.
  induction cs as [|c cs IH]; simpl.
  - reflexivity.
  - rewrite <- app_assoc, parse_chars_print_char, IH. reflexivity.
Qed.

Lemma digits_string_of_uint (u : Decimal.uint) :
  Forall (fun c => digit c = true) (list_ascii_of_string (NilEmpty.string_of_uint u)).
Proof.
  induction u; simpl; constructor; auto.
Qed.

Lemma span_digits_app (l rest : list ascii) :
  Forall (fun c => digit c = true) l -> nodigit rest ->
  span_digits (l ++ rest) = (l, rest).
Proof.
  intros Hl Hr. induction Hl as [|c l Hc _ IH]; simpl.
  - destruct rest as [|c r]; simpl in *; [reflexivity | now rewrite Hr].
  - now rewrite Hc, IH.
Qed.

Lemma nzhead_not_D0 (d u : Decimal.uint) : Decimal.nzhead d <> Decimal.D0 u.
Proof.
  induction d; simpl; try discriminate. exact IHd.
Qed.

Lemma to_uint_canonical (n : N) :
  N.to_uint n <> Decimal.Nil /\ forall u, N.to_uint n = Decimal.D0 u -> u = Decimal.Nil.
Proof.
  assert (E : N.to_uint n = Decimal.unorm (N.to_uint n)).
  { rewrite <- DecimalN.Unsigned.to_of, DecimalN.Unsigned.of_to. reflexivity. }
  split.
  - rewrite E. apply unorm_nonnil.
  - intros u Hu. rewrite E in Hu. unfold Decimal.unorm in Hu.
    destruct (Decimal.nzhead (N.to_uint n)) eqn:Hz; try discriminate.
    + now inversion Hu.
    + exfalso. eapply nzhead_not_D0, Hz.
Qed.

Lemma parse_N_print (n : N) (rest : list ascii) :
  nodigit rest ->
  parse_N (list_ascii_of_string (string_of_N n) ++ rest) = Some (n, rest).
Proof.
  intros Hr. unfold parse_N, string_of_N.
  destruct (to_uint_canonical n) as [Hnil Hzero].
  assert (E : NilZero.string_of_uint (N.to_uint n) = NilEmpty.string_of_uint (N.to_uint n)).
  { destruct (N.to_uint n); [congruence | reflexivity ..]. }
  rewrite E, span_digits_app by (auto using digits_string_of_uint).
  rewrite string_of_list_ascii_of_string, NilEmpty.usu, DecimalN.Unsigned.of_to.
  destruct (N.to_uint n) as [|u|u|u|u|u|u|u|u|u|u] eqn:Hu; try congruence; try reflexivity.
  rewrite (Hzero u eq_refl). reflexivity.
Qed.

Lemma string_of_N_head (n : N) :
  exists c t, list_ascii_of_string (string_of_N n) = c :: t /\ digit c = true.
Proof.
  unfold string_of_N. destruct (to_uint_canonical n) as [Hnil _].
  destruct (N.to_uint n); try congruence; simpl; eauto.
Qed.

Lemma list_ascii_of_string_app (a b : string) :
  list_ascii_of_string (a +:+ b) = list_ascii_of_string a ++ list_ascii_of_string b.
Proof.
  induction a as [|c a IH]; simpl; [reflexivity | now rewrite IH].
Qed.

Lemma parse_number_print (z : Z) (rest : list ascii) :
  nodigit rest ->
  parse_number (list_ascii_of_string (string_of_Z z) ++ rest) = Some (z, rest).
Proof.
  intros Hr. unfold string_of_Z.
  destruct (Z.ltb_spec z 0) as [Hneg|Hpos].
  - rewrite list_ascii_of_string_app. simpl.
    rewrite parse_N_print by assumption. f_equal. f_equal. lia.
  - destruct (string_of_N_head (Z.to_N z)) as (c & t & E & Hc).
    unfold parse_number. rewrite E. simpl.
    replace (Ascii.eqb c "-") with false
      by (destruct c as [[] [] [] [] [] [] [] []]; try discriminate Hc; reflexivity).
    change (c :: t ++ rest) with ((c :: t) ++ rest). rewrite <- E.
    rewrite parse_N_print by assumption. f_equal. f_equal. lia.
Qed.


Lemma size_arr l : size (JArr l) = S (sizes l).
Proof. simpl. f_equal; induction l; simpl; auto. Qed.

Lemma size_obj l : size (JObj l) = S (msizes l).
Proof. simpl. f_equal; induction l; simpl; auto. Qed.

Lemma size_pos v : 1 <= size v.
Proof. destruct v; simpl; lia. Qed.

Lemma sizes_pos l : 1 <= sizes l.
Proof. destruct l as [|x r]; simpl; [lia | pose proof (size_pos x); lia]. Qed.

Lemma msizes_pos l : 1 <= msizes l.
Proof. destruct l as [|m r]; simpl; [lia | pose proof (size_pos (snd m)); lia]. Qed.

Lemma print_arr x xs : print (JArr (x :: xs)) = "["%char :: print x ++ print_elems xs.
Proof. simpl. do 2 f_equal; induction xs; simpl; congruence. Qed.

Lemma print_obj k x ms :
  print (JObj ((k, x) :: ms)) =
  "{"%char :: print_string k ++ ":"%char :: print x ++ print_members ms.
Proof.
  simpl. do 4 f_equal; induction ms as [|[k' y] r IH]; simpl; congruence.
Qed.

Lemma literal_app word v rest : literal word v (word ++ rest) = Some (v, rest).
Proof.
  unfold literal. rewrite take_app_length, drop_app_length.
  now rewrite bool_decide_eq_true_2.
Qed.

Lemma print_head v : exists c t, print v = c :: t /\ opens c.
Proof.
  destruct v as [| [] | n | s | [|x xs] | [|[k x] ms]];
    try (eexists _, _; split; [reflexivity | repeat split]).
  unfold print, string_of_Z.
  destruct (n <? 0)%Z.
  - simpl. eexists _, _; split; [reflexivity | repeat split].
  - destruct (string_of_N_head (Z.to_N n)) as (c & t & E & Hc).
    exists c, t. split; [exact E |].
    destruct c as [[] [] [] [] [] [] [] []]; try discriminate Hc; repeat split.
Qed.

Lemma parse_value_S fuel s :
  parse_value (S fuel) s =
  match skip_ws s with
  | [] => None
  | c :: r =>
      if Ascii.eqb c "n" then literal (list_ascii_of_string "ull") JNull r
      else if Ascii.eqb c "t" then literal (list_ascii_of_string "rue") (JBool true) r
      else if Ascii.eqb c "f" then literal (list_ascii_of_string "alse") (JBool false) r
      else if Ascii.eqb c quote then
        match parse_chars r with
        | Some (cs, r1) => Some (JStr (string_of_list_ascii cs), r1)
        | None => None
        end
      else if Ascii.eqb c "[" then
        if starts_with "]" (skip_ws r) then Some (JArr [], tail (skip_ws r))
        else match parse_value fuel (skip_ws r) with
             | Some (x, r2) =>
                 match parse_elems fuel r2 with
                 | Some (xs, r3) => Some (JArr (x :: xs), r3)
                 | None => None
                 end
             | None => None
             end
      else if Ascii.eqb c "{" then
        if starts_with "}" (skip_ws r) then Some (JObj [], tail (skip_ws r))
        else match parse_member (parse_value fuel) (skip_ws r) with
             | Some (m, r2) =>
                 match parse_members fuel r2 with
                 | Some (ms, r3) => Some (JObj (m :: ms), r3)
                 | None => None
                 end
             | None => None
             end
      else match parse_number (c :: r) with
           | Some (n, r1) => Some (JNum n, r1)
           | None => None
           end
  end.
Proof. reflexivity. Qed.

Lemma parse_string_print (s : string) (rest : list ascii) :
  parse_chars (concat (map print_char (list_ascii_of_string s)) ++ [quote] ++ rest)
  = Some (list_ascii_of_string s, rest).
Proof. apply parse_chars_print. Qed.

Lemma parse_member_print pv k x rest :
  pv (print x ++ rest) = Some (x, rest) ->
  parse_member pv
    (quote :: concat (map print_char (list_ascii_of_string k)) ++
     quote :: ":"%char :: print x ++ rest) = Some ((k, x), rest).
Proof.
  intros Hpv. unfold parse_member. simpl.
  rewrite parse_chars_print. simpl. rewrite Hpv.
  now rewrite string_of_list_ascii_of_string.
Qed.

Lemma skip_ws_print v rest : skip_ws (print v ++ rest) = print v ++ rest.
Proof.
  destruct (print_head v) as (c & t & E & Hws & _). rewrite E. simpl. now rewrite Hws.
Qed.

Lemma starts_print c v rest :
  (forall x, opens x -> Ascii.eqb x c = false) ->
  starts_with c (print v ++ rest) = false.
Proof.
  intros Hc. destruct (print_head v) as (x & t & E & Hx). rewrite E. simpl. auto.
Qed.

Lemma opens_bracket x : opens x -> Ascii.eqb x "]" = false.
Proof. now intros (_ & H & _). Qed.

Lemma opens_brace x : opens x -> Ascii.eqb x "}" = false.
Proof. now intros (_ & _ & H). Qed.

Lemma nodigit_elems xs r : nodigit (print_elems xs ++ r).
Proof. destruct xs; reflexivity. Qed.

Lemma nodigit_members ms r : nodigit (print_members ms ++ r).
Proof. destruct ms as [|[]]; reflexivity. Qed.

Lemma parse_print_elems xs :
  Forall reads_back xs ->
  forall fuel rest, sizes xs <= fuel ->
  parse_elems fuel (print_elems xs ++ rest) = Some (xs, rest).
Proof.
  induction 1 as [|x xs Hx _ IH]; intros f r Hf; simpl in Hf.
  - destruct f as [|f]; [lia | reflexivity].
  - pose proof (size_pos x). pose proof (sizes_pos xs).
    destruct f as [|f]; [lia |].
    simpl. rewrite <- app_assoc.
    rewrite Hx by (lia || apply nodigit_elems).
    rewrite IH by lia. reflexivity.
Qed.

Lemma parse_print_members ms :
  Forall (fun m => reads_back (snd m)) ms ->
  forall fuel rest, msizes ms <= fuel ->
  parse_members fuel (print_members ms ++ rest) = Some (ms, rest).
Proof.
  induction 1 as [|[k x] xs Hx _ IH]; intros f r Hf; simpl in *.
  - destruct f as [|f]; [lia | reflexivity].
  - pose proof (size_pos x). pose proof (msizes_pos xs).
    destruct f as [|f]; [lia |].
    simpl. rewrite <- !app_assoc. simpl. rewrite <- !app_assoc.
    rewrite parse_member_print by (apply Hx; [lia | apply nodigit_members]).
    rewrite IH by lia. reflexivity.
Qed.

Lemma parse_print_value v : reads_back v.
Proof.
  induction v as [| b | n | s | l IH | ms IH] using JSON_ind; intros fuel rest Hfuel Hrest;
    (destruct fuel as [|fuel];
     [match type of Hfuel with size ?v <= _ => pose proof (size_pos v) end; lia |]).
  - rewrite parse_value_S. simpl. apply (literal_app (list_ascii_of_string "ull")).
  - rewrite parse_value_S. destruct b; simpl.
    + apply (literal_app (list_ascii_of_string "rue")).
    + apply (literal_app (list_ascii_of_string "alse")).
  - rewrite parse_value_S.
    destruct (print_head (JNum n)) as (c & t & E & Hws & _).
    pose proof (parse_number_print n rest Hrest) as Hnum.
    simpl in E. simpl. rewrite E in *. simpl. rewrite Hws.
    assert (Hc : digit c = true \/ c = "-"%char).
    { unfold string_of_Z in E. destruct (n <? 0)%Z.
      - right. simpl in E. congruence.
      - left. destruct (string_of_N_head (Z.to_N n)) as (c' & t' & E' & Hc'). congruence. }
    replace (Ascii.eqb c "n") with false; [replace (Ascii.eqb c "t") with false;
      [replace (Ascii.eqb c "f") with false; [replace (Ascii.eqb c quote) with false;
        [replace (Ascii.eqb c "[") with false; [replace (Ascii.eqb c "{") with false |] |] |] |] |];
      try (destruct Hc as [Hc|Hc]; [| subst c; reflexivity];
           destruct c as [[] [] [] [] [] [] [] []]; try discriminate Hc; reflexivity).
    simpl in Hnum. rewrite Hnum. reflexivity.
  - rewrite parse_value_S. unfold print, print_string. simpl.
    rewrite <- app_assoc. simpl. rewrite parse_chars_print.
    now rewrite string_of_list_ascii_of_string.
  - rewrite size_arr in Hfuel. destruct l as [|x xs]; [reflexivity |].
    rewrite parse_value_S, print_arr. simpl. inversion IH as [|? ? Hx Hxs]; subst.
    simpl in Hfuel. pose proof (size_pos x). pose proof (sizes_pos xs).
    rewrite <- app_assoc, skip_ws_print, (starts_print _ _ _ opens_bracket).
    rewrite Hx by (lia || apply nodigit_elems).
    rewrite parse_print_elems by (assumption || lia). reflexivity.
  - rewrite size_obj in Hfuel. destruct ms as [|[k x] xs]; [reflexivity |].
    rewrite parse_value_S, print_obj. simpl. inversion IH as [|? ? Hx Hxs]; subst.
    simpl in Hfuel, Hx. pose proof (size_pos x). pose proof (msizes_pos xs).
    unfold print_string. simpl. rewrite <- !app_assoc. simpl. rewrite <- !app_assoc.
    rewrite parse_member_print by (apply Hx; [lia | apply nodigit_members]).
    rewrite parse_print_members by (assumption || lia). reflexivity.
Qed.

Lemma size_print v : size v <= length (print v).
Proof.
  induction v as [| b | n | s | l IH | ms IH] using JSON_ind.
  - simpl. lia.
  - destruct b; simpl; lia.
  - destruct (print_head (JNum n)) as (c & t & E & _). rewrite E. simpl. lia.
  - simpl. lia.
  - rewrite size_arr. destruct l as [|x xs]; [simpl; lia |].
    rewrite print_arr. inversion IH as [|? ? Hx Hxs]; subst. simpl. rewrite length_app.
    assert (sizes xs <= length (print_elems xs)).
    { clear Hx IH. induction Hxs as [|y ys Hy _ IHys]; simpl; [lia |].
      rewrite length_app. lia. }
    lia.
  - rewrite size_obj. destruct ms as [|[k x] xs]; [simpl; lia |].
    rewrite print_obj. inversion IH as [|? ? Hx Hxs]; subst. simpl in *.
    rewrite !length_app. simpl. rewrite length_app.
    assert (msizes xs <= length (print_members xs)).
    { clear Hx IH. induction Hxs as [|[k' y] ys Hy _ IHys]; simpl in *; [lia |].
      rewrite !length_app. simpl. rewrite length_app. lia. }
    lia.
Qed.

Theorem stringify_reads_back v : parse (stringify v) = Some v.
Proof.
  unfold parse, stringify. rewrite list_ascii_of_string_of_list_ascii.
  rewrite <- (app_nil_r (print v)) at 2.
  rewrite parse_print_value; [reflexivity | | exact I].
  pose proof (size_print v). lia.
Qed.

Lemma empty_text_rejected : parse "" = None.
Proof. reflexivity. Qed.

End CodecFacts.

#[export] Instance codec_laws : HostLaws codec_host.
Proof.
  split.
  - exact CodecFacts.stringify_reads_back.
  - exact CodecFacts.empty_text_rejected.
Qed.

(** ** The history store *)

Section HistoryStore.
Context {host : Host} {laws : HostLaws host}.
Variable env : Env.

Lemma stringify_truthy (v : JSON) : truthy_string (JSON_stringify v) = true.
Proof.
  unfold truthy_string. destruct (String.eqb_spec (JSON_stringify v) "") as [E|]; [| reflexivity].
  pose proof (parse_stringify v) as Hv. rewrite E, parse_empty in Hv. discriminate.
Qed.

(** [getHistory] always returns and changes nothing. *)
Lemma getHistory_frame (w : World) : exists v, getHistory w = (Ok v, w).
Proof.
  unfold getHistory, try_catch, bind, getItem, ret, throw.
  destruct (localStorage w !! HISTORY_KEY) as [blob|]; [| eauto].
  destruct (truthy_string blob); [| eauto].
  destruct (JSON_parse blob); eauto.
Qed.

Lemma getHistory_absent (w : World) :
  localStorage w !! HISTORY_KEY = None -> getHistory w = (Ok (JArr []), w).
Proof.
  intros H. unfold getHistory, try_catch, bind, getItem. now rewrite H.
Qed.

Lemma getHistory_stored (w : World) (v : JSON) :
  localStorage w !! HISTORY_KEY = Some (JSON_stringify v) -> getHistory w = (Ok v, w).
Proof.
  intros H. unfold getHistory, try_catch, bind, getItem.
  now rewrite H, stringify_truthy, parse_stringify.
Qed.

Lemma saveToHistory_array (result : JSON) (userContext : string) (l : list JSON) (w : World) :
  getHistory w = (Ok (JArr l), w) ->
  saveToHistory env result userContext w
  = (Ok (itemAt env result userContext (ticks w)), saved env result userContext l w).
Proof.
  intros H. unfold saveToHistory, bind. rewrite H. reflexivity.
Qed.

Lemma getHistory_saved (result : JSON) (userContext : string) (l : list JSON) (w : World) :
  getHistory (saved env result userContext l w)
  = (Ok (JArr (take 50 (itemAt env result userContext (ticks w) :: l))),
     saved env result userContext l w).
Proof.
  apply getHistory_stored. unfold saved, with_storage. simpl. apply lookup_insert_eq.
Qed.

Lemma take_app_take {A} (n : nat) (a b : list A) :
  take n (a ++ take n b) = take n (a ++ b).
Proof.
  rewrite !take_app, take_take. f_equal. f_equal. lia.
Qed.

(** A run of calls from a store that lists [l]: every call returns, and the
    store then lists the first 50 of the new items, newest first, followed by
    [l]. *)
Lemma saveAll_from (calls : list (JSON * string)) :
  forall (l : list JSON) (w : World),
  getHistory w = (Ok (JArr l), w) ->
  exists items w',
    saveAll env calls w = (Ok items, w')
    /\ length items = length calls
    /\ getHistory w'
       = (Ok (JArr (match calls with [] => l | _ => take 50 (reverse items ++ l) end)), w')
    /\ (calls <> [] ->
        localStorage w' !! HISTORY_KEY
        = Some (JSON_stringify (JArr (take 50 (reverse items ++ l)))))
    /\ requests w' = requests w /\ ui w' = ui w.
Proof.
  induction calls as [|[result userContext] calls IH]; intros l w Hw.
  - exists [], w. simpl. repeat split; congruence.
  - set (x := itemAt env result userContext (ticks w)).
    destruct (IH (take 50 (x :: l)) (saved env result userContext l w))
      as (items & w' & Hrun & Hlen & Hget & Hsto & Hreq & Hui).
    { apply getHistory_saved. }
    exists (x :: items), w'. split; [| split; [| split; [| split]]].
    + simpl. unfold bind. rewrite (saveToHistory_array _ _ l) by assumption.
      fold x. now rewrite Hrun.
    + simpl. congruence.
    + rewrite Hget. do 3 f_equal. rewrite reverse_cons, <- app_assoc.
      change ([x] ++ l) with (x :: l). destruct calls as [|c calls].
      * destruct items; [reflexivity | discriminate].
      * apply take_app_take.
    + intros _. rewrite reverse_cons, <- app_assoc.
      change ([x] ++ l) with (x :: l). destruct calls as [|c calls].
      * destruct items; [| discriminate]. simpl in Hrun. inversion Hrun; subst.
        unfold saved, with_storage. simpl. apply lookup_insert_eq.
      * rewrite Hsto by discriminate. now rewrite take_app_take.
    + split; [rewrite Hreq | rewrite Hui]; reflexivity.
Qed.

End HistoryStore.

(** A store whose text is absent or does not parse is read as the empty
    history, and the call writes the one new item. *)
Lemma saveToHistory_unreadable {host : Host} (env : Env) (result : JSON)
    (userContext : string) (w : World) :
  match localStorage w !! HISTORY_KEY with
  | Some blob => JSON_parse blob = None
  | None => True
  end ->
  saveToHistory env result userContext w
  = (Ok (itemAt env result userContext (ticks w)), saved env result userContext [] w).
Proof.
  intros H. unfold saveToHistory, getHistory, try_catch, bind, getItem.
  destruct (localStorage w !! HISTORY_KEY) as [blob|]; [| reflexivity].
  destruct (truthy_string blob); [| reflexivity]. now rewrite H.
Qed.

(** C3.  From an empty store, any run of [saveToHistory] calls returns, and
    the history then read is the 50 most recently created items, newest
    first: at most 50 of them, and with 51 calls all but the oldest. *)
Theorem history_keeps_50_most_recent {host : Host} {laws : HostLaws host}
    (env : Env) (calls : list (JSON * string)) (w : World) :
  localStorage w !! HISTORY_KEY = None ->
  exists items w',
    saveAll env calls w = (Ok items, w')
    /\ length items = length calls
    /\ getHistory w' = (Ok (JArr (take 50 (reverse items))), w')
    /\ length (take 50 (reverse items)) <= 50
    /\ (forall oldest later, items = oldest :: later -> length later = 50 ->
        take 50 (reverse items) = reverse later).
Proof.
  intros Hempty.
  destruct (saveAll_from env calls [] w (getHistory_absent w Hempty))
    as (items & w' & Hrun & Hlen & Hget & _).
  exists items, w'. repeat split; try assumption.
  - rewrite Hget, app_nil_r. destruct calls; [| reflexivity].
    destruct items; [reflexivity | discriminate].
  - rewrite length_take. lia.
  - intros oldest later -> Hlater. rewrite reverse_cons, take_app_length'; [reflexivity |].
    now rewrite length_reverse.
Qed.

Lemma history_keeps_50_most_recent_witness :
  exists items w',
    saveAll (answering "{}") [(JObj [], "first"); (JObj [], "second")] freshWorld
    = (Ok items, w')
    /\ length items = 2
    /\ getHistory w' = (Ok (JArr (take 50 (reverse items))), w')
    /\ length (take 50 (reverse items)) <= 50
    /\ (forall oldest later, items = oldest :: later -> length later = 50 ->
        take 50 (reverse items) = reverse later).
Proof.
  apply (history_keeps_50_most_recent (answering "{}")
           [(JObj [], "first"); (JObj [], "second")] freshWorld).
  reflexivity.
Defined.

(** C7.  From a store that lists [l], after any run of calls the history read
    starts with the item created last, and is an initial part of the new
    items, newest first, followed by [l] in the order it had. *)
Theorem record_keeps_order {host : Host} {laws : HostLaws host}
    (env : Env) (calls : list (JSON * string)) (l : list JSON) (w : World) :
  getHistory w = (Ok (JArr l), w) ->
  exists items w' kept,
    saveAll env calls w = (Ok items, w')
    /\ getHistory w' = (Ok (JArr kept), w')
    /\ kept `prefix_of` reverse items ++ l
    /\ (forall earlier newest, items = earlier ++ [newest] -> head kept = Some newest).
Proof.
  intros Hw.
  destruct (saveAll_from env calls l w Hw) as (items & w' & Hrun & Hlen & Hget & _).
  exists items, w'. eexists. split; [exact Hrun |]. split; [exact Hget |]. split.
  - destruct calls; [| apply prefix_take].
    destruct items; [reflexivity | discriminate].
  - intros earlier newest ->. rewrite reverse_app. simpl.
    destruct calls; [| reflexivity].
    rewrite length_app in Hlen. simpl in Hlen. lia.
Qed.

Lemma record_keeps_order_witness :
  exists items w' kept,
    saveAll (answering "{}") [(JObj [], "first"); (JObj [], "second")] freshWorld
    = (Ok items, w')
    /\ getHistory w' = (Ok (JArr kept), w')
    /\ kept `prefix_of` reverse items ++ []
    /\ (forall earlier newest, items = earlier ++ [newest] -> head kept = Some newest).
Proof.
  apply (record_keeps_order (answering "{}")
           [(JObj [], "first"); (JObj [], "second")] [] freshWorld).
  reflexivity.
Defined.

(** C10, at a stored text that is JSON but not an array: [getHistory] hands
    the parsed object on, the spread of it throws, and nothing is written. *)
Theorem saveToHistory_throws_on_stored_object (env : Env) (result : JSON)
    (userContext : string) :
  saveToHistory env result userContext (storing "{}")
  = (Throw (TypeError "history is not iterable"), tick (tick (tick (storing "{}")))).
Proof.
  unfold saveToHistory, getHistory, try_catch, bind, getItem, storing. simpl.
  rewrite lookup_singleton_eq. reflexivity.
Qed.

(** The id of an item: the clock in base 36, then the random digits. *)
Example item_id :
  field (itemAt (answering "{}") (JObj []) "" 0) "id" = Some (JStr "loyw3v284fzyo82mvyr").
Proof. reflexivity. Qed.

(** Fifty-one calls on the codec of this file: fifty items are kept, from the
    item of the last call down to the item of the second. *)
Example fifty_first_call_evicts_oldest :
  let env := answering "{}" in
  exists items kept w',
    saveAll env (replicate 51 (JObj [], "")) freshWorld = (Ok items, w')
    /\ fst (getHistory w') = Ok (JArr kept)
    /\ length kept = 50
    /\ head kept = items !! 50
    /\ last kept = items !! 1.
Proof.
  eexists _, _, _. split; [vm_compute; reflexivity |].
  vm_compute. repeat split.
Qed.

(** ** The model gateway *)

Lemma own_app (k : string) (a b : list (string * JSON)) :
  own k (a ++ b) = match own k b with Some x => Some x | None => own k a end.
Proof.
  induction a as [|[k' v] a IH]; simpl.
  - now destruct (own k b).
  - rewrite IH. now destruct (own k b).
Qed.

Lemma string_of_nat_head (j : nat) :
  exists c t, string_of_nat j = String c t /\ Codec.digit c = true.
Proof.
  destruct (CodecFacts.string_of_N_head (N.of_nat j)) as (c & t & E & Hc).
  unfold string_of_nat. destruct (string_of_N (N.of_nat j)) as [|c' t'];
    simpl in E; [discriminate |]. injection E as -> _. eauto.
Qed.

(** The index names of an array are numerals: none is a stage-1 field. *)
Lemma indexed_no_field (k : string) (l : list JSON) :
  In k stage1_fields -> forall i, own k (indexed i l) = None.
Proof.
  intros Hk. induction l as [|x l IH]; intros i; simpl; [reflexivity |].
  rewrite IH. destruct (string_of_nat_head i) as (c & t & -> & Hc).
  simpl in Hk. decompose [or] Hk; subst; try contradiction; simpl;
    destruct c as [[] [] [] [] [] [] [] []]; try discriminate Hc; reflexivity.
Qed.

Lemma compatibility_keeps_fields (parsed : JSON) (k : string) :
  In k stage1_fields ->
  has_field k (JObj (own_props parsed ++ compatibility)) = has_field k parsed.
Proof.
  intros Hk. unfold has_field at 1. rewrite own_app.
  replace (own k compatibility) with (@None JSON)
    by (simpl in Hk; decompose [or] Hk; subst; try contradiction; reflexivity).
  destruct parsed; try reflexivity.
  - simpl. now rewrite indexed_no_field.
  - simpl. unfold chars. now rewrite indexed_no_field.
Qed.

(** C1 as stated fails: when the service answers with the text of the empty
    object, stage 1 returns an object with none of the five fields. *)
Lemma diagnose_returns_partial_object :
  fst (analyzeHomework (answering "{}") (Some homeworkPhoto) "" None freshWorld)
  = Ok (JObj compatibility)
  /\ complete (JObj compatibility) = false
  /\ has_field "stage" (JObj compatibility) = false.
Proof. repeat split. Qed.

(** C1, amended.  With the credential set and the payloads encoded, stage 1
    sends one request and then either fails with the stage-1 gateway error or
    returns what the response text parsed to, as an object with the two
    compatibility fields added; each of the five stage-1 fields is in the
    result just when the response text had it. *)
Theorem diagnose_returns_parsed_or_fails {host : Host} (env : Env)
    (imageFile : option File.t) (textContext : string) (audioBlob : option Blob.t)
    (w : World) (key : string) (imageParts audioParts : list Part) :
  getAIClient env w = (Ok key, w) ->
  imagePart env imageFile w = (Ok imageParts, w) ->
  audioPart env audioBlob w = (Ok audioParts, w) ->
  let request := diagnosisRequest textContext (imageParts ++ audioParts) in
  let out := analyzeHomework env imageFile textContext audioBlob w in
  snd out = sent request w
  /\ (fst out = Throw GatewayError1
      \/ exists textResponse parsed,
           service env (length (requests w)) request
           = Ok {| response_text := Some textResponse |}
           /\ JSON_parse textResponse = Some parsed
           /\ fst out = Ok (JObj (own_props parsed ++ compatibility))
           /\ (forall k, In k stage1_fields ->
               has_field k (JObj (own_props parsed ++ compatibility))
               = has_field k parsed)).
Proof.
  intros Hkey Himg Haud request out. subst out.
  unfold analyzeHomework, bind. rewrite Hkey, Himg, Haud.
  unfold try_catch, generateContent, parseResponse, lift, throw, ret.
  subst request. unfold diagnosisRequest. simpl.
  match goal with
  | |- context [service env ?n ?r] =>
      destruct (service env n r) as [[[textResponse|]]|e]
  end; simpl; try (split; [reflexivity | left; reflexivity]).
  destruct (truthy_string textResponse); simpl;
    try (split; [reflexivity | left; reflexivity]).
  destruct (JSON_parse textResponse) as [parsed|] eqn:Hparse; simpl;
    try (split; [reflexivity | left; reflexivity]).
  destruct parsed; simpl; try (split; [reflexivity | left; reflexivity]).
  - rewrite <- app_assoc. split; [reflexivity | right]. eexists _, _.
    split; [reflexivity | split; [eassumption | split; [reflexivity |]]].
    intros k Hk. now apply (compatibility_keeps_fields (JArr elems)).
  - rewrite <- app_assoc. split; [reflexivity | right]. eexists _, _.
    split; [reflexivity | split; [eassumption | split; [reflexivity |]]].
    intros k Hk. now apply (compatibility_keeps_fields (JObj members)).
Qed.

Lemma diagnose_returns_parsed_or_fails_witness :
  let request := diagnosisRequest "" ([inlineData "image/jpeg" "/9j/4AAQ"] ++ []) in
  let out := analyzeHomework (answering "{}") (Some homeworkPhoto) "" None freshWorld in
  snd out = sent request freshWorld
  /\ (fst out = Throw GatewayError1
      \/ exists textResponse parsed,
           service (answering "{}") (length (requests freshWorld)) request
           = Ok {| response_text := Some textResponse |}
           /\ JSON_parse textResponse = Some parsed
           /\ fst out = Ok (JObj (own_props parsed ++ compatibility))
           /\ (forall k, In k stage1_fields ->
               has_field k (JObj (own_props parsed ++ compatibility))
               = has_field k parsed)).
Proof.
  apply (diagnose_returns_parsed_or_fails (answering "{}") (Some homeworkPhoto) "" None
           freshWorld "key"); reflexivity.
Defined.

(** ** The session *)

Lemma validateFile_message (file : File.t) (m : string) :
  validateFile file = Some m -> truthy_string m = true.
Proof.
  unfold validateFile.
  destruct (negb (includes ALLOWED_TYPES (File.type file))); [intros [= <-]; reflexivity |].
  destruct (MAX_FILE_SIZE_BYTES <? File.size file)%N; [intros [= <-]; reflexivity |].
  discriminate.
Qed.

(** C8.  A file whose type is not one of the three allowed, or whose size is
    over 10 MB, is rejected by [handleImageUpload] and by [handleDrop] alike:
    the validation message becomes the error, no request is sent, the store is
    not touched, and diagnosis, transcript and mastery flag stay as they were. *)
Theorem invalid_upload_rejected (env : Env) (file : File.t) (w : World) :
  includes ALLOWED_TYPES (File.type file) = false
  \/ (10 * 1024 * 1024 < File.size file)%N ->
  exists m,
    validateFile file = Some m
    /\ m <> ""
    /\ handleImageUpload env (Some file) w = (Ok tt, snd (setError (Some m) w))
    /\ handleDrop env (Some file) w = (Ok tt, snd (setError (Some m) w))
    /\ requests (snd (setError (Some m) w)) = requests w
    /\ localStorage (snd (setError (Some m) w)) = localStorage w
    /\ session (ui (snd (setError (Some m) w))) = session (ui w)
    /\ image (ui (snd (setError (Some m) w))) = image (ui w).
Proof.
  intros Hbad.
  assert (Hm : exists m, validateFile file = Some m).
  { unfold validateFile. destruct Hbad as [Htype|Hsize].
    - rewrite Htype. simpl. eauto.
    - destruct (negb _); [eauto |].
      apply N.ltb_lt in Hsize. unfold MAX_FILE_SIZE_BYTES, MAX_FILE_SIZE_MB.
      rewrite Hsize. eauto. }
  destruct Hm as [m Hm]. exists m.
  pose proof (validateFile_message file m Hm) as Htruthy.
  split; [exact Hm |]. split.
  { intros ->. discriminate. }
  unfold handleImageUpload, handleDrop, rejected. rewrite Hm, Htruthy.
  repeat split.
Qed.

Lemma invalid_upload_rejected_witness :
  exists m,
    validateFile homeworkPdf = Some m
    /\ m <> ""
    /\ handleImageUpload (answering "{}") (Some homeworkPdf) freshWorld
       = (Ok tt, snd (setError (Some m) freshWorld))
    /\ handleDrop (answering "{}") (Some homeworkPdf) freshWorld
       = (Ok tt, snd (setError (Some m) freshWorld))
    /\ requests (snd (setError (Some m) freshWorld)) = requests freshWorld
    /\ localStorage (snd (setError (Some m) freshWorld)) = localStorage freshWorld
    /\ session (ui (snd (setError (Some m) freshWorld))) = session (ui freshWorld)
    /\ image (ui (snd (setError (Some m) freshWorld))) = image (ui freshWorld).
Proof.
  apply (invalid_upload_rejected (answering "{}") homeworkPdf freshWorld).
  left. reflexivity.
Defined.

(** C9.  Without a diagnosis, or with an empty reply text and no reply audio,
    [handlePracticeReply] returns at once: the world (state, requests, store,
    clock readings) is the one it started in. *)
Theorem reply_without_input_is_noop {host : Host} (env : Env) (w : World) :
  diagnosis (ui w) = JNull
  \/ (replyText (ui w) = "" /\ replyAudio (ui w) = None) ->
  handlePracticeReply env (ui w) w = (Ok tt, w).
Proof.
  intros H. unfold handlePracticeReply.
  replace (nothingToSend (ui w)) with true; [reflexivity |].
  unfold nothingToSend. destruct H as [-> | [-> ->]].
  - simpl. now rewrite orb_true_r.
  - reflexivity.
Qed.

Lemma reply_without_input_is_noop_witness :
  handlePracticeReply (answering "{}") (ui freshWorld) freshWorld = (Ok tt, freshWorld).
Proof.
  apply (reply_without_input_is_noop (answering "{}") freshWorld).
  left. reflexivity.
Defined.

(** Stage 2 touches neither the component state, the store nor the clock. *)
Lemma evaluatePracticeResponse_frame {host : Host} (env : Env) (topic question : value)
    (chat : list ChatMessage) (input : string) (audio : option Blob.t)
    (w w' : World) (r : Result JSON) :
  evaluatePracticeResponse env topic question chat input audio w = (r, w') ->
  ui w' = ui w /\ localStorage w' = localStorage w /\ ticks w' = ticks w.
Proof.
  unfold evaluatePracticeResponse, bind, getAIClient, audioPart, try_catch,
    generateContent, parseResponse, lift, throw, ret.
  destruct (API_KEY env) as [k|]; [destruct (truthy_string k) |];
    try (intros [= <- <-]; repeat split).
  destruct audio as [b|]; [destruct (blobToGenerativePart env b) |]; simpl;
    try (intros [= <- <-]; repeat split);
    match goal with
    | |- context [service env ?n ?q] => destruct (service env n q) as [[[t|]]|e]
    end; simpl; try (intros [= <- <-]; repeat split);
    destruct (truthy_string t); simpl; try (intros [= <- <-]; repeat split);
    destruct (JSON_parse t); simpl; intros [= <- <-]; repeat split.
Qed.

Lemma get_prop_field (v : JSON) (k : string) :
  v <> JNull -> get_prop (Some v) k = Ok (field v k).
Proof.
  intros Hv. unfold field. destruct v; try reflexivity. congruence.
Qed.

(** C5.  In an active session with a reply text or a reply audio,
    [handlePracticeReply] first, before the gateway is called, appends the
    user message, whose content is the typed text or, without text, the label
    [(Audio Response)].  When the gateway then returns a feedback, the tutor
    message is appended after it: its content is the feedback message, a
    space, and the next instruction, and its feedback type is the evaluation
    result.  The mastery flag is set just when the dialogue action is
    [MASTERY_ACHIEVED], and the diagnosis stays. *)
Theorem practice_reply_turn {host : Host} (env : Env) (w w2 : World)
    (question topic question_text : value) (feedback : JSON) :
  let s := ui w in
  let userMsg := userMessage s (clock env (ticks w)) in
  let w1 := snd (optimisticUpdate env s w) in
  nothingToSend s = false ->
  isMasteryAchieved s = false ->
  get_prop (Some (diagnosis s)) "new_practice_question" = Ok question ->
  get_prop question "topic" = Ok topic ->
  get_prop question "question_text" = Ok question_text ->
  evaluatePracticeResponse env topic question_text (chatHistory s ++ [userMsg])
    (or_string (replyText s) "(Audio Response)") (replyAudio s) w1 = (Ok feedback, w2) ->
  feedback <> JNull ->
  let w' := snd (handlePracticeReply env s w) in
  optimisticUpdate env s w = (Ok userMsg, w1)
  /\ chatHistory (ui w1) = chatHistory s ++ [userMsg]
  /\ requests w1 = requests w
  /\ role userMsg = user
  /\ content userMsg
     = Some (JStr (if truthy_string (replyText s) then replyText s else "(Audio Response)"))
  /\ chatHistory (ui w')
     = chatHistory s ++ [userMsg; tutorMessage feedback (clock env (ticks w2))]
  /\ isMasteryAchieved (ui w')
     = is_string (field feedback "dialogue_action") "MASTERY_ACHIEVED"
  /\ diagnosis (ui w') = diagnosis s.
Proof.
  intros s userMsg w1 Hguard Hflag Hq Ht Hqt Heval Hfb w'.
  destruct (evaluatePracticeResponse_frame _ _ _ _ _ _ _ _ _ Heval) as (Hui & _ & _).
  split; [reflexivity |]. split; [reflexivity |]. split; [reflexivity |].
  split; [reflexivity |]. split; [reflexivity |].
  assert (Hchat1 : chatHistory (ui w1) = chatHistory s ++ [userMsg]) by reflexivity.
  assert (Hflag1 : isMasteryAchieved (ui w1) = isMasteryAchieved s) by reflexivity.
  assert (Hdiag1 : diagnosis (ui w1) = diagnosis s) by reflexivity.
  assert (Hopt : optimisticUpdate env s w = (Ok userMsg, w1)) by reflexivity.
  cut (exists wf, handlePracticeReply env s w = (Ok tt, wf)
         /\ chatHistory (ui wf)
            = chatHistory s ++ [userMsg; tutorMessage feedback (clock env (ticks w2))]
         /\ isMasteryAchieved (ui wf)
            = is_string (field feedback "dialogue_action") "MASTERY_ACHIEVED"
         /\ diagnosis (ui wf) = diagnosis s).
  { intros (wf & Hrun & Hgoal). subst w'. rewrite Hrun. exact Hgoal. }
  clearbody w1 userMsg. clear w'.
  unfold handlePracticeReply. rewrite Hguard. unfold bind at 1. rewrite Hopt.
  unfold try_finally, try_catch, tutorTurn, bind, lift.
  rewrite Hq, Ht, Hqt, Heval. rewrite !(get_prop_field feedback) by assumption.
  unfold Date_now.
  destruct (is_string (field feedback "dialogue_action") "MASTERY_ACHIEVED") eqn:Hda;
    simpl; (eexists; split; [reflexivity |]); simpl; rewrite Hui, Hchat1, Hdiag1;
    rewrite <- app_assoc; repeat split; congruence.
Qed.

Lemma practice_reply_turn_witness :
  let env := answering (Codec.stringify masteryFeedback) in
  let w := activeSession "F = ma, so a = 10" in
  let userMsg := userMessage (ui w) (clock env 0) in
  let w' := snd (handlePracticeReply env (ui w) w) in
  content userMsg = Some (JStr "F = ma, so a = 10")
  /\ chatHistory (ui w')
     = [openingMessage; userMsg; tutorMessage masteryFeedback (clock env 1)]
  /\ content (tutorMessage masteryFeedback (clock env 1))
     = Some (JStr "Exactly. You have mastered this.")
  /\ isMasteryAchieved (ui w') = true.
Proof.
  intros env w userMsg w'.
  pose proof (practice_reply_turn env w
                (snd (evaluatePracticeResponse env (Some (JStr "Newton's second law"))
                        (Some (JStr "A 2 kg cart is pushed with 20 N. Find a."))
                        (chatHistory (ui w) ++ [userMsg]) "F = ma, so a = 10" None
                        (snd (optimisticUpdate env (ui w) w))))
                (field sampleDiagnosis "new_practice_question")
                (Some (JStr "Newton's second law"))
                (Some (JStr "A 2 kg cart is pushed with 20 N. Find a."))
                masteryFeedback) as H.
  cbv zeta in H.
  destruct H as (_ & _ & _ & _ & Hcontent & Hchat & Hflag & _);
    [reflexivity | reflexivity | reflexivity | reflexivity | reflexivity
    | vm_compute; reflexivity | discriminate |].
  split; [exact Hcontent |]. split; [exact Hchat |]. split; [reflexivity | exact Hflag].
Defined.

(** C6.  When the stage-2 gateway call throws, the user message appended
    before the call stays, nothing else is added to the transcript, diagnosis
    and mastery flag are as before, and the message of the error (or, if it has
    none, a fixed one) is put in the error field. *)
Theorem failed_reply_keeps_user_message {host : Host} (env : Env) (w w2 : World)
    (question topic question_text : value) (e : JsError) :
  let s := ui w in
  let userMsg := userMessage s (clock env (ticks w)) in
  let w1 := snd (optimisticUpdate env s w) in
  nothingToSend s = false ->
  get_prop (Some (diagnosis s)) "new_practice_question" = Ok question ->
  get_prop question "topic" = Ok topic ->
  get_prop question "question_text" = Ok question_text ->
  evaluatePracticeResponse env topic question_text (chatHistory s ++ [userMsg])
    (or_string (replyText s) "(Audio Response)") (replyAudio s) w1 = (Throw e, w2) ->
  let w' := snd (handlePracticeReply env s w) in
  chatHistory (ui w') = chatHistory s ++ [userMsg]
  /\ diagnosis (ui w') = diagnosis s
  /\ isMasteryAchieved (ui w') = isMasteryAchieved s
  /\ error (ui w') = Some (or_string (message e) "Failed to get feedback.")
  /\ isLoading (ui w') = false.
Proof.
  intros s userMsg w1 Hguard Hq Ht Hqt Heval w'.
  destruct (evaluatePracticeResponse_frame _ _ _ _ _ _ _ _ _ Heval) as (Hui & _ & _).
  assert (Hchat1 : chatHistory (ui w1) = chatHistory s ++ [userMsg]) by reflexivity.
  assert (Hflag1 : isMasteryAchieved (ui w1) = isMasteryAchieved s) by reflexivity.
  assert (Hdiag1 : diagnosis (ui w1) = diagnosis s) by reflexivity.
  assert (Hopt : optimisticUpdate env s w = (Ok userMsg, w1)) by reflexivity.
  cut (exists wf, handlePracticeReply env s w = (Ok tt, wf)
         /\ chatHistory (ui wf) = chatHistory s ++ [userMsg]
         /\ diagnosis (ui wf) = diagnosis s
         /\ isMasteryAchieved (ui wf) = isMasteryAchieved s
         /\ error (ui wf) = Some (or_string (message e) "Failed to get feedback.")
         /\ isLoading (ui wf) = false).
  { intros (wf & Hrun & Hgoal). subst w'. rewrite Hrun. exact Hgoal. }
  clearbody w1 userMsg. clear w'.
  unfold handlePracticeReply. rewrite Hguard. unfold bind at 1. rewrite Hopt.
  unfold try_finally, try_catch, tutorTurn, bind, lift.
  rewrite Hq, Ht, Hqt, Heval. simpl.
  eexists; split; [reflexivity |]. simpl. rewrite Hui. repeat split; assumption.
Qed.

Lemma failed_reply_keeps_user_message_witness :
  let w := activeSession "F = ma, so a = 10" in
  let userMsg := userMessage (ui w) (clock unreachable 0) in
  let w' := snd (handlePracticeReply unreachable (ui w) w) in
  chatHistory (ui w') = [openingMessage; userMsg]
  /\ diagnosis (ui w') = sampleDiagnosis
  /\ isMasteryAchieved (ui w') = false
  /\ error (ui w') = Some "Failed to evaluate answer."
  /\ isLoading (ui w') = false.
Proof.
  intros w userMsg w'.
  apply (failed_reply_keeps_user_message unreachable w
           (snd (evaluatePracticeResponse unreachable (Some (JStr "Newton's second law"))
                   (Some (JStr "A 2 kg cart is pushed with 20 N. Find a."))
                   (chatHistory (ui w) ++ [userMsg]) "F = ma, so a = 10" None
                   (snd (optimisticUpdate unreachable (ui w) w))))
           (field sampleDiagnosis "new_practice_question")
           (Some (JStr "Newton's second law"))
           (Some (JStr "A 2 kg cart is pushed with 20 N. Find a."))
           GatewayError2); reflexivity.
Defined.

(** *** Starting a session *)

Ltac inner_case :=
  match goal with
  | |- context [match ?x with _ => _ end] =>
      lazymatch x with
      | context [match _ with _ => _ end] => fail
      | _ => destruct x eqn:?
      end
  end.

(** What stage 1 returns is an object. *)
Lemma analyzeHomework_object {host : Host} (env : Env) (imageFile : option File.t)
    (textContext : string) (audioBlob : option Blob.t) (w w' : World) (data : JSON) :
  analyzeHomework env imageFile textContext audioBlob w = (Ok data, w') ->
  exists ms, data = JObj ms.
Proof.
  unfold analyzeHomework, bind, getAIClient, imagePart, audioPart, try_catch,
    generateContent, parseResponse, lift, throw, ret, assign_prop.
  repeat (inner_case; simpl; try discriminate).
  all: intros [= <- <-]; eauto.
Qed.

Lemma saveToHistory_frame {host : Host} (env : Env) (result : JSON) (userContext : string)
    (w : World) :
  ui (snd (saveToHistory env result userContext w)) = ui w
  /\ requests (snd (saveToHistory env result userContext w)) = requests w.
Proof.
  unfold saveToHistory, bind. destruct (getHistory_frame w) as [v ->]. simpl.
  destruct (iterate "history" v); split; reflexivity.
Qed.

(** C4.  A session started by a successful diagnosis, and a session loaded
    from a history item, both have the diagnosis as the active one and a
    transcript of exactly one message, from the tutor, whose content is that
    diagnosis's [next_instruction]. *)
Theorem new_session_opens_with_instruction {host : Host} (env : Env)
    (w w1 w0 : World) (file : File.t) (data item : JSON) :
  let s := ui w in
  image s = Some file ->
  analyzeHomework env (image s) (textInput s) (audioBlob s) (began w) = (Ok data, w1) ->
  item <> JNull ->
  let fresh := ui (snd (handleInitialAnalysis env s w)) in
  let loaded := ui (snd (handleHistorySelect item w0)) in
  (diagnosis fresh = data
   /\ exists m, chatHistory fresh = [m] /\ role m = tutor
                /\ content m = field data "next_instruction")
  /\ (diagnosis loaded = item
      /\ exists m, chatHistory loaded = [m] /\ role m = tutor
                   /\ content m = field item "next_instruction").
Proof.
  intros s Himage Hrun Hitem fresh loaded. split.
  - destruct (analyzeHomework_object _ _ _ _ _ _ _ Hrun) as [ms ->].
    cut (exists r wf, handleInitialAnalysis env s w = (r, wf)
           /\ diagnosis (ui wf) = JObj ms
           /\ exists m, chatHistory (ui wf) = [m] /\ role m = tutor
                        /\ content m = field (JObj ms) "next_instruction").
    { intros (r & wf & Hr & Hgoal). subst fresh. rewrite Hr. exact Hgoal. }
    clear fresh loaded. unfold handleInitialAnalysis. rewrite Himage in *.
    unfold began in Hrun. simpl in Hrun.
    unfold try_finally, try_catch, bind, lift. simpl. rewrite Hrun. simpl.
    match goal with
    | |- context [saveToHistory env ?r ?c ?x] =>
        destruct (saveToHistory_frame env r c x) as [Hui _];
        destruct (saveToHistory env r c x) as [[saved_item|e] w3]
    end; simpl in Hui.
    + destruct (getHistory_frame w3) as [v ->]. simpl.
      eexists _, _. split; [reflexivity |]. simpl. rewrite Hui. simpl.
      split; [reflexivity |]. eexists. repeat split.
    + simpl. eexists _, _. split; [reflexivity |]. simpl. rewrite Hui. simpl.
      split; [reflexivity |]. eexists. repeat split.
  - subst loaded. unfold handleHistorySelect, bind, lift, setDiagnosis, setShowHistory.
    cbv beta iota delta [modify]. rewrite !get_prop_field by assumption. simpl.
    split; [reflexivity |]. eexists. repeat split.
Qed.

Lemma new_session_opens_with_instruction_witness :
  let env := answering (Codec.stringify stage1Answer) in
  let fresh := ui (snd (handleInitialAnalysis env (ui readyToDiagnose) readyToDiagnose)) in
  let loaded := ui (snd (handleHistorySelect sampleDiagnosis (masteredSession true))) in
  (diagnosis fresh = sampleDiagnosis
   /\ exists m, chatHistory fresh = [m] /\ role m = tutor
                /\ content m = Some (JStr "Write the law you will use."))
  /\ (diagnosis loaded = sampleDiagnosis
      /\ exists m, chatHistory loaded = [m] /\ role m = tutor
                   /\ content m = Some (JStr "Write the law you will use.")).
Proof.
  intros env fresh loaded.
  pose proof (new_session_opens_with_instruction env readyToDiagnose
                (snd (analyzeHomework env (Some homeworkPhoto) "" None
                        (began readyToDiagnose)))
                (masteredSession true) homeworkPhoto sampleDiagnosis sampleDiagnosis) as H.
  cbv zeta in H. apply H; [reflexivity | vm_compute; reflexivity | discriminate].
Defined.

(** *** Mastery *)

(** C2 as stated fails in its last part: with the history view open on a
    mastered session, choosing a stored item replaces the session (the flag
    is cleared, the transcript is the item's opening message) though no new
    homework was started. *)
Lemma history_select_replaces_mastered_session :
  let w := masteredSession true in
  let w' := snd (dispatch (answering "{}") (ClickHistoryItem 0) w) in
  MasteryAchieved (ui w) = true
  /\ startsNewHomework (ClickHistoryItem 0) = false
  /\ session (ui w') <> session (ui w)
  /\ isMasteryAchieved (ui w') = false
  /\ chatHistory (ui w')
     = [{| role := tutor; content := Some (JStr "Write the law you will use.");
           timestamp := undefined; feedbackType := INFO |}]
  /\ requests w' = requests w.
Proof.
  repeat split. intros H. discriminate H.
Qed.

(** C2, amended.  In the mastered state a reply event (the Reply button, a key
    in the reply box) does nothing at all: no request, no change of the
    transcript or of anything else.  The only events that change diagnosis,
    transcript or mastery flag are those that start new homework and the
    choice of an item in the history view.  The Upload New Homework button
    leaves no diagnosis and an empty transcript, and sends nothing. *)
Theorem mastery_is_terminal {host : Host} (env : Env) (w : World) (e : Event) :
  MasteryAchieved (ui w) = true ->
  let w' := snd (dispatch env e w) in
  (submitsReply e = true -> dispatch env e w = (Ok tt, w))
  /\ (session (ui w') <> session (ui w) ->
      startsNewHomework e = true \/ exists i, e = ClickHistoryItem i)
  /\ (e = ClickUploadNewHomework -> showHistory (ui w) = false ->
      diagnosis (ui w') = JNull /\ chatHistory (ui w') = [] /\ requests w' = requests w).
Proof.
  unfold MasteryAchieved. intros H. apply andb_prop in H as [Hd Hm]. cbv zeta.
  split; [| split].
  - intros He. unfold dispatch, rendered, replyFormShown.
    destruct e; try discriminate; rewrite Hd, Hm, !andb_false_r; reflexivity.
  - intros Hneq.
    destruct e as [| | c | | i | | [f|] | [f|] | t | b | | | t | k sh | b |];
      try (left; reflexivity); try (right; eauto; fail);
      exfalso; apply Hneq; unfold dispatch, rendered, replyFormShown, handler;
      rewrite ?Hd, ?Hm, ?andb_false_r; simpl;
      repeat (inner_case; simpl; try reflexivity);
      try reflexivity; destruct c; reflexivity.
  - intros -> Hview. unfold dispatch, rendered. rewrite Hd, Hm, Hview. repeat split.
Qed.

Lemma mastery_is_terminal_witness :
  let w := masteredSession false in
  let w' := snd (dispatch (answering "{}") ClickReply w) in
  (submitsReply ClickReply = true -> dispatch (answering "{}") ClickReply w = (Ok tt, w))
  /\ (session (ui w') <> session (ui w) ->
      startsNewHomework ClickReply = true \/ exists i, ClickReply = ClickHistoryItem i)
  /\ (ClickReply = ClickUploadNewHomework -> showHistory (ui w) = false ->
      diagnosis (ui w') = JNull /\ chatHistory (ui w') = [] /\ requests w' = requests w).
Proof.
  apply (mastery_is_terminal (answering "{}") (masteredSession false) ClickReply).
  reflexivity.
Defined.

(** The handler itself does not look at the mastery flag: called on a mastered
    session with a reply text, it would send a request.  What keeps it from
    being called is that the reply form is not rendered. *)
Remark handlePracticeReply_unguarded :
  let w := masteredSession false in
  rendered (ui w) ClickReply = false
  /\ length (requests (snd (handlePracticeReply (answering "{}") (ui w) w))) = 1.
Proof. split; reflexivity. Qed.

(** * Further properties *)

(** ** Further properties of the history store *)

(** X1.  After [clearHistory] the history reads as empty, whatever was stored;
    the other keys of local storage are untouched. *)
Theorem clear_then_list_is_empty {host : Host} (w : World) :
  let w' := snd (clearHistory w) in
  getHistory w' = (Ok (JArr []), w')
  /\ localStorage w' !! HISTORY_KEY = None
  /\ (forall k, k <> HISTORY_KEY -> localStorage w' !! k = localStorage w !! k)
  /\ ui w' = ui w /\ requests w' = requests w.
Proof.
  intros w'. assert (H : localStorage w' !! HISTORY_KEY = None) by apply lookup_delete_eq.
  split; [now apply getHistory_absent |]. split; [exact H |]. split; [| split; reflexivity].
  intros k Hk. apply lookup_delete_ne. congruence.
Qed.

(** X2.  [getHistory] never throws and changes nothing.  It gives the empty
    array when nothing is stored, when the stored text is empty and when it
    does not parse; otherwise it gives what the text parses to, array or not. *)
Theorem getHistory_swallows_corruption {host : Host} (w : World) :
  exists v,
    getHistory w = (Ok v, w)
    /\ match localStorage w !! HISTORY_KEY with
       | None => v = JArr []
       | Some blob =>
           (blob = "" -> v = JArr [])
           /\ (JSON_parse blob = None -> v = JArr [])
           /\ (forall x, blob <> "" -> JSON_parse blob = Some x -> v = x)
       end.
Proof.
  unfold getHistory, try_catch, bind, getItem, ret, throw.
  destruct (localStorage w !! HISTORY_KEY) as [blob|]; [| eauto].
  unfold truthy_string. destruct (String.eqb_spec blob "") as [->|Hne]; simpl.
  - eexists. split; [reflexivity |]. repeat split; congruence.
  - destruct (JSON_parse blob) as [x|]; eexists; (split; [reflexivity |]);
      repeat split; congruence.
Qed.


(** X4.  The item [saveToHistory] creates is the diagnosis with three members
    set: the context given, a fresh id (clock in base 36, then the random
    digits) and the clock as timestamp; they take precedence over members of
    those names in the diagnosis, and every other member is kept.  It is what
    the history then starts with, before the first 49 items listed until then. *)
Theorem saved_item_extends_diagnosis {host : Host} {laws : HostLaws host} (env : Env)
    (result : JSON) (userContext : string) (l : list JSON) (w : World) :
  getHistory w = (Ok (JArr l), w) ->
  exists item w',
    saveToHistory env result userContext w = (Ok item, w')
    /\ field item "user_context" = Some (JStr userContext)
    /\ field item "id"
       = Some (JStr (toString36 (clock env (ticks w))
                     +:+ substr 2 (random36 env (S (ticks w)))))
    /\ field item "timestamp" = Some (JNum (clock env (S (S (ticks w)))))
    /\ (forall k, k <> "user_context" -> k <> "id" -> k <> "timestamp" ->
        field item k = own k (own_props result))
    /\ getHistory w' = (Ok (JArr (item :: take 49 l)), w').
Proof.
  intros Hw. eexists _, _. split; [apply (saveToHistory_array env _ _ l w Hw) |].
  unfold itemAt, field, get_prop.
  split; [now rewrite own_app |]. split; [now rewrite own_app |].
  split; [now rewrite own_app |]. split.
  - intros k H1 H2 H3. rewrite own_app.
    apply String.eqb_neq in H1, H2, H3. rewrite String.eqb_sym in H1, H2, H3.
    cbn -[String.eqb]. now rewrite H1, H2, H3.
  - apply getHistory_saved.
Qed.

Lemma saved_item_extends_diagnosis_witness :
  exists item w',
    saveToHistory (answering "{}") sampleDiagnosis "my notes" freshWorld = (Ok item, w')
    /\ field item "user_context" = Some (JStr "my notes")
    /\ field item "id" = Some (JStr "loyw3v284fzyo82mvyr")
    /\ field item "timestamp" = Some (JNum 1700000000002)
    /\ (forall k, k <> "user_context" -> k <> "id" -> k <> "timestamp" ->
        field item k = own k (own_props sampleDiagnosis))
    /\ getHistory w' = (Ok (JArr (item :: take 49 [])), w').
Proof.
  apply (saved_item_extends_diagnosis (answering "{}") sampleDiagnosis "my notes" []
           freshWorld).
  reflexivity.
Defined.

(** ** Further properties of the model gateway *)

(** X5.  Without the credential (absent or empty), both stages throw the
    configuration error at once: no request is sent and nothing changes. *)
Theorem missing_key_fails_before_any_request {host : Host} (env : Env)
    (imageFile : option File.t) (textContext : string) (audioBlob : option Blob.t)
    (topic question : value) (chat : list ChatMessage) (currentInput : string)
    (w : World) :
  API_KEY env = None \/ API_KEY env = Some "" ->
  analyzeHomework env imageFile textContext audioBlob w = (Throw missingKey, w)
  /\ evaluatePracticeResponse env topic question chat currentInput audioBlob w
     = (Throw missingKey, w).
Proof.
  intros Hkey. unfold analyzeHomework, evaluatePracticeResponse, bind, getAIClient.
  destruct Hkey as [-> | ->]; split; reflexivity.
Qed.

Lemma missing_key_fails_before_any_request_witness :
  analyzeHomework keyless (Some homeworkPhoto) "" None freshWorld
  = (Throw missingKey, freshWorld)
  /\ evaluatePracticeResponse keyless None None [] "F = ma" None freshWorld
     = (Throw missingKey, freshWorld).
Proof.
  apply (missing_key_fails_before_any_request keyless). left. reflexivity.
Defined.

(** X6.  A failure of an encoder is thrown as it is, not as a gateway error,
    and before any request: the image's in stage 1, the audio's in both
    stages. *)
Theorem encoding_failure_is_thrown_as_is {host : Host} (env : Env)
    (file : File.t) (blob : Blob.t) (textContext : string) (audioBlob : option Blob.t)
    (topic question : value) (chat : list ChatMessage) (currentInput : string)
    (w : World) (key : string) (e1 e2 : JsError) :
  getAIClient env w = (Ok key, w) ->
  fileToGenerativePart env file = Throw e1 ->
  blobToGenerativePart env blob = Throw e2 ->
  analyzeHomework env (Some file) textContext audioBlob w = (Throw e1, w)
  /\ analyzeHomework env None textContext (Some blob) w = (Throw e2, w)
  /\ evaluatePracticeResponse env topic question chat currentInput (Some blob) w
     = (Throw e2, w).
Proof.
  intros Hkey Hfile Hblob.
  unfold analyzeHomework, evaluatePracticeResponse, bind, imagePart, audioPart, lift.
  rewrite Hkey, Hfile, Hblob. repeat split.
Qed.

Lemma encoding_failure_is_thrown_as_is_witness :
  analyzeHomework unreadableMedia (Some homeworkPhoto) "" None freshWorld
  = (Throw (Error "read failed"), freshWorld)
  /\ analyzeHomework unreadableMedia None "" (Some voiceNote) freshWorld
     = (Throw (Error "read failed"), freshWorld)
  /\ evaluatePracticeResponse unreadableMedia None None [] "" (Some voiceNote) freshWorld
     = (Throw (Error "read failed"), freshWorld).
Proof.
  apply (encoding_failure_is_thrown_as_is unreadableMedia homeworkPhoto voiceNote ""
           None None None [] "" freshWorld "key"); reflexivity.
Defined.

(** X7.  Once the request of stage 1 is built, it is sent, and stage 1 returns
    just when the service answers with a non-empty text that parses to an
    object or an array; what it returns is then that value's members with the
    two compatibility fields.  In every other case (the service fails, no
    text, empty text, text that is not JSON, JSON null, boolean, number or
    string) the error is the one stage-1 error: the cause is not passed on. *)
Theorem diagnose_succeeds_iff {host : Host} (env : Env)
    (imageFile : option File.t) (textContext : string) (audioBlob : option Blob.t)
    (w : World) (key : string) (imageParts audioParts : list Part) :
  getAIClient env w = (Ok key, w) ->
  imagePart env imageFile w = (Ok imageParts, w) ->
  audioPart env audioBlob w = (Ok audioParts, w) ->
  let request := diagnosisRequest textContext (imageParts ++ audioParts) in
  let out := analyzeHomework env imageFile textContext audioBlob w in
  snd out = sent request w
  /\ (forall data,
        fst out = Ok data <->
        exists t v,
          service env (length (requests w)) request = Ok {| response_text := Some t |}
          /\ t <> "" /\ JSON_parse t = Some v /\ isObject v = true
          /\ data = JObj (own_props v ++ compatibility))
  /\ (forall e, fst out = Throw e -> e = GatewayError1).
Proof.
  intros Hkey Himg Haud request out. subst out.
  unfold analyzeHomework, bind. rewrite Hkey, Himg, Haud.
  unfold try_catch, generateContent, parseResponse, lift, throw, ret.
  subst request. unfold diagnosisRequest. simpl.
  match goal with
  | |- context [service env ?n ?r] =>
      destruct (service env n r) as [[[t|]]|e0]
  end; simpl.
  2,3: split; [reflexivity | split; [| intros e [= <-]; reflexivity]];
       intros data; split; [discriminate | intros (t' & v & H & _); discriminate].
  unfold truthy_string. destruct (String.eqb_spec t "") as [->|Hne]; simpl.
  { split; [reflexivity | split; [| intros e [= <-]; reflexivity]].
    intros data; split; [discriminate | intros (t' & v & [= <-] & H & _); congruence]. }
  destruct (JSON_parse t) as [v|] eqn:Hparse; simpl.
  2:{ split; [reflexivity | split; [| intros e [= <-]; reflexivity]].
      intros data; split; [discriminate |].
      intros (t' & v & [= <-] & _ & H & _); congruence. }
  destruct v; simpl; rewrite <- ?app_assoc;
    (split; [reflexivity | split; [| intros e He; now inversion He]]);
    intros data; (split;
      [ intros He; inversion He; subst; eexists _, _; repeat split; eauto
      | intros (t' & v' & [= <-] & _ & Hv & Hobj & ->); rewrite Hparse in Hv;
        injection Hv as <-; first [discriminate Hobj | reflexivity] ]).
Qed.

Lemma diagnose_succeeds_iff_witness :
  let env := answering "{}" in
  let request := diagnosisRequest "" ([inlineData "image/jpeg" "/9j/4AAQ"] ++ []) in
  let out := analyzeHomework env (Some homeworkPhoto) "" None freshWorld in
  snd out = sent request freshWorld
  /\ (forall data,
        fst out = Ok data <->
        exists t v,
          service env (length (requests freshWorld)) request
          = Ok {| response_text := Some t |}
          /\ t <> "" /\ JSON_parse t = Some v /\ isObject v = true
          /\ data = JObj (own_props v ++ compatibility))
  /\ (forall e, fst out = Throw e -> e = GatewayError1).
Proof.
  apply (diagnose_succeeds_iff (answering "{}") (Some homeworkPhoto) "" None freshWorld
           "key"); reflexivity.
Defined.

(** X8.  Once the request of stage 2 is built, it is sent (prompt first, then
    the audio, declared as [audio/wav]), and stage 2 returns just when the
    service answers with a non-empty text that parses; it returns the parsed
    value as it is, whatever it is.  In every other case the error is the one
    stage-2 error. *)
Theorem evaluate_succeeds_iff {host : Host} (env : Env)
    (topic question : value) (chat : list ChatMessage) (currentInput : string)
    (audioBlob : option Blob.t) (w : World) (key : string) (audioParts : list Part) :
  getAIClient env w = (Ok key, w) ->
  audioPart env audioBlob w = (Ok audioParts, w) ->
  let request := feedbackRequest topic question chat currentInput audioParts in
  let out := evaluatePracticeResponse env topic question chat currentInput audioBlob w in
  snd out = sent request w
  /\ (forall b d, audioBlob = Some b -> blobToGenerativePart env b = Ok d ->
      audioParts = [inlineData "audio/wav" d])
  /\ (forall feedback,
        fst out = Ok feedback <->
        exists t,
          service env (length (requests w)) request = Ok {| response_text := Some t |}
          /\ t <> "" /\ JSON_parse t = Some feedback)
  /\ (forall e, fst out = Throw e -> e = GatewayError2).
Proof.
  intros Hkey Haud request out. subst out.
  assert (Hparts : forall b d, audioBlob = Some b -> blobToGenerativePart env b = Ok d ->
                   audioParts = [inlineData "audio/wav" d]).
  { intros b d -> Hd. unfold audioPart, bind, lift, ret in Haud. rewrite Hd in Haud.
    simpl in Haud. congruence. }
  unfold evaluatePracticeResponse, bind. rewrite Hkey, Haud.
  unfold try_catch, generateContent, parseResponse, lift, throw, ret.
  subst request. unfold feedbackRequest. simpl.
  match goal with
  | |- context [service env ?n ?r] =>
      destruct (service env n r) as [[[t|]]|e0]
  end; simpl.
  2,3: split; [reflexivity | split; [exact Hparts | split; [| intros e [= <-]; reflexivity]]];
       intros data; split; [discriminate | intros (t' & H & _); discriminate].
  unfold truthy_string. destruct (String.eqb_spec t "") as [->|Hne]; simpl.
  { split; [reflexivity | split; [exact Hparts | split; [| intros e [= <-]; reflexivity]]].
    intros data; split; [discriminate | intros (t' & [= <-] & H & _); congruence]. }
  destruct (JSON_parse t) as [v|] eqn:Hparse; simpl.
  2:{ split; [reflexivity | split; [exact Hparts | split; [| intros e [= <-]; reflexivity]]].
      intros data; split; [discriminate |].
      intros (t' & [= <-] & _ & H); congruence. }
  split; [reflexivity | split; [exact Hparts | split; [| discriminate]]].
  intros data; split.
  - intros [= <-]. eauto.
  - intros (t' & [= <-] & _ & Hv). congruence.
Qed.

Lemma evaluate_succeeds_iff_witness :
  let env := answering (Codec.stringify masteryFeedback) in
  let request := feedbackRequest None None [] "F = ma"
                   [inlineData "audio/wav" "GkXfo59C"] in
  let out := evaluatePracticeResponse env None None [] "F = ma" (Some voiceNote)
               freshWorld in
  snd out = sent request freshWorld
  /\ (forall b d, Some voiceNote = Some b -> blobToGenerativePart env b = Ok d ->
      [inlineData "audio/wav" "GkXfo59C"] = [inlineData "audio/wav" d])
  /\ (forall feedback,
        fst out = Ok feedback <->
        exists t,
          service env (length (requests freshWorld)) request
          = Ok {| response_text := Some t |}
          /\ t <> "" /\ JSON_parse t = Some feedback)
  /\ (forall e, fst out = Throw e -> e = GatewayError2).
Proof.
  apply (evaluate_succeeds_iff (answering (Codec.stringify masteryFeedback)) None None []
           "F = ma" (Some voiceNote) freshWorld "key"); reflexivity.
Defined.

(** ** Invariants of the session *)

Lemma evaluatePracticeResponse_requests {host : Host} (env : Env) (topic question : value)
    (chat : list ChatMessage) (input : string) (audio : option Blob.t)
    (w w' : World) (r : Result JSON) :
  evaluatePracticeResponse env topic question chat input audio w = (r, w') ->
  oneMore (requests w) (requests w').
Proof.
  unfold evaluatePracticeResponse, getAIClient, audioPart, try_catch,
    generateContent, parseResponse, bind, lift, throw, ret, oneMore.
  repeat (inner_case; simpl); intros [= <- <-]; simpl;
    first [left; reflexivity | right; eexists; reflexivity].
Qed.

Lemma analyzeHomework_frame {host : Host} (env : Env) (imageFile : option File.t)
    (textContext : string) (audioBlob : option Blob.t) (w w' : World) (r : Result JSON) :
  analyzeHomework env imageFile textContext audioBlob w = (r, w') ->
  ui w' = ui w /\ localStorage w' = localStorage w /\ ticks w' = ticks w
  /\ oneMore (requests w) (requests w').
Proof.
  unfold analyzeHomework, getAIClient, imagePart, audioPart, try_catch,
    generateContent, parseResponse, bind, lift, throw, ret, assign_prop, oneMore.
  repeat (inner_case; simpl); intros [= <- <-]; simpl; repeat split;
    first [left; reflexivity | right; eexists; reflexivity].
Qed.

Lemma handlePracticeReply_run {host : Host} (env : Env) (w : World) :
  nothingToSend (ui w) = false ->
  exists wf extra,
    handlePracticeReply env (ui w) w = (Ok tt, wf)
    /\ chatHistory (ui wf)
       = chatHistory (ui w) ++ userMessage (ui w) (clock env (ticks w)) :: extra
    /\ (extra = [] \/ exists m, extra = [m] /\ role m = tutor)
    /\ diagnosis (ui wf) = diagnosis (ui w)
    /\ isLoading (ui wf) = false
    /\ localStorage wf = localStorage w
    /\ oneMore (requests w) (requests wf)
    /\ (isMasteryAchieved (ui wf) = isMasteryAchieved (ui w)
        \/ (isMasteryAchieved (ui wf) = true /\ extra <> [])).
Proof.
  intros Hguard. unfold handlePracticeReply. rewrite Hguard.
  unfold optimisticUpdate, tutorTurn, try_finally, try_catch, bind, lift, Date_now.
  simpl.
  repeat (inner_case; simpl);
    repeat match goal with
    | H : evaluatePracticeResponse _ _ _ _ _ _ _ = (_, _) |- _ =>
        destruct (evaluatePracticeResponse_frame _ _ _ _ _ _ _ _ _ H) as (Hui & Hsto & _);
        pose proof (evaluatePracticeResponse_requests _ _ _ _ _ _ _ _ _ H) as Hreq;
        clear H
    end.
  all: simpl in *.
  all: first
    [ eexists _, []; split; [reflexivity |]; simpl; try rewrite Hui; try rewrite Hsto;
      simpl;
      split; [reflexivity |]; split; [left; reflexivity |];
      split; [congruence |]; split; [reflexivity |]; split; [reflexivity |];
      split; [first [exact Hreq | left; reflexivity] | left; reflexivity]
    | eexists _, [_]; split; [reflexivity |]; simpl; rewrite Hui, Hsto; simpl;
      split; [now rewrite <- app_assoc |];
      split; [right; eexists; split; reflexivity |];
      split; [congruence |]; split; [reflexivity |]; split; [reflexivity |];
      split; [exact Hreq |];
      first [left; reflexivity | right; split; [reflexivity | discriminate]] ].
Qed.

Lemma handleInitialAnalysis_run {host : Host} (env : Env) (w : World) (file : File.t) :
  image (ui w) = Some file ->
  exists wf,
    handleInitialAnalysis env (ui w) w = (Ok tt, wf)
    /\ isLoading (ui wf) = false
    /\ oneMore (requests w) (requests wf)
    /\ isMasteryAchieved (ui wf) = isMasteryAchieved (ui w)
    /\ ((session (ui wf) = session (ui w) /\ localStorage wf = localStorage w
         /\ history (ui wf) = history (ui w))
        \/ exists ms m,
             diagnosis (ui wf) = JObj ms /\ chatHistory (ui wf) = [m]
             /\ role m = tutor /\ content m = own "next_instruction" ms).
Proof.
  intros Himage. unfold handleInitialAnalysis. rewrite Himage.
  unfold try_finally, try_catch, bind, lift. simpl.
  match goal with
  | |- context [analyzeHomework env ?i ?t ?a ?x] =>
      destruct (analyzeHomework env i t a x) as [[data|e] w1] eqn:Hrun;
      destruct (analyzeHomework_frame _ _ _ _ _ _ _ Hrun) as (Hui & Hsto & _ & Hreq)
  end; simpl in Hui, Hsto, Hreq.
  - destruct (analyzeHomework_object _ _ _ _ _ _ _ Hrun) as [ms ->]. simpl.
    match goal with
    | |- context [saveToHistory env ?r ?c ?x] =>
        destruct (saveToHistory_frame env r c x) as [Hui2 Hreq2];
        destruct (saveToHistory env r c x) as [[saved_item|e] w3]
    end; simpl in Hui2, Hreq2.
    + destruct (getHistory_frame w3) as [v ->]. simpl.
      eexists. split; [reflexivity |]. simpl. rewrite Hui2, Hreq2. simpl. rewrite Hui.
      simpl. repeat split; [exact Hreq |].
      right. eexists _, _. repeat split.
    + simpl. eexists. split; [reflexivity |]. simpl. rewrite Hui2, Hreq2. simpl.
      rewrite Hui. simpl. repeat split; [exact Hreq |].
      right. eexists _, _. repeat split.
  - simpl. eexists. split; [reflexivity |]. simpl. rewrite Hui, Hsto. simpl.
    repeat split; [exact Hreq |]. left. repeat split.
Qed.

(** Every event is of one of five kinds. *)
Lemma dispatch_cases {host : Host} (env : Env) (e : Event) (w : World) :
  let w' := snd (dispatch env e w) in
  quietStep e w w'
  \/ resetStep w w'
  \/ loadStep w w'
  \/ (e = ClickStartDiagnosis /\ diagnoseStep w w')
  \/ (submitsReply e = true /\ truthy (diagnosis (ui w)) = true /\ replyStep env w w').
Proof.
  assert (Hquiet : quietStep e w w) by (repeat split; left; reflexivity).
  assert (Hreply : rendered (ui w) e = true -> submitsReply e = true ->
            let w' := snd (handlePracticeReply env (ui w) w) in
            quietStep e w w'
            \/ (submitsReply e = true /\ truthy (diagnosis (ui w)) = true
                /\ replyStep env w w')).
  { intros Hr He w'. subst w'.
    assert (Hd : truthy (diagnosis (ui w)) = true).
    { destruct e; try discriminate; simpl in Hr; unfold replyFormShown in Hr;
        destruct (truthy (diagnosis (ui w))); try reflexivity;
        rewrite ?andb_false_r in Hr; discriminate. }
    destruct (nothingToSend (ui w)) eqn:Hguard.
    - left. unfold handlePracticeReply. rewrite Hguard. exact Hquiet.
    - right. split; [exact He |]. split; [exact Hd |].
      destruct (handlePracticeReply_run env w Hguard) as (wf & extra & -> & H).
      exists extra. exact H. }
  unfold dispatch. destruct (rendered (ui w) e) eqn:Hr; [| left; exact Hquiet].
  destruct e; simpl.
  - left. repeat split; left; reflexivity.
  - left. repeat split; left; reflexivity.
  - left. destruct confirmed; simpl; repeat split; eauto.
  - left. repeat split; left; reflexivity.
  - destruct (history (ui w)) as [| | | |l|]; try (left; exact Hquiet).
    destruct (l !! i) as [item|]; [| left; exact Hquiet].
    destruct item; simpl;
      first [ right; left; repeat split; right; reflexivity
            | right; right; left; split; [eexists; repeat split | repeat split] ].
  - right; left. repeat split. right; reflexivity.
  - destruct files0 as [file|]; [| left; exact Hquiet]. unfold handleDrop.
    destruct (rejected (validateFile file)); simpl.
    + left. repeat split; left; reflexivity.
    + right; left. repeat split. left; reflexivity.
  - destruct files0 as [file|]; [| left; exact Hquiet]. unfold handleImageUpload.
    destruct (rejected (validateFile file)); simpl.
    + left. repeat split; left; reflexivity.
    + right; left. repeat split. left; reflexivity.
  - left. repeat split; left; reflexivity.
  - left. repeat split; left; reflexivity.
  - right; right; right; left. split; [reflexivity |].
    simpl in Hr. destruct (image (ui w)) as [file|] eqn:Himage.
    2:{ rewrite orb_true_r, !andb_false_r in Hr. discriminate. }
    destruct (handleInitialAnalysis_run env w file Himage) as (wf & -> & H). exact H.
  - right; left. repeat split. right; reflexivity.
  - left. repeat split; left; reflexivity.
  - destruct (String.eqb key "Enter" && negb shiftKey); [| left; exact Hquiet].
    destruct (Hreply eq_refl eq_refl) as [H|H]; [left; exact H | right; right; right; right; exact H].
  - left. repeat split; left; reflexivity.
  - destruct (Hreply eq_refl eq_refl) as [H|H]; [left; exact H | right; right; right; right; exact H].
Qed.

(** X9.  [handlePracticeReply] only ever appends to the transcript: what it
    adds is nothing, the user message, or the user message and then a tutor
    message.  It keeps the diagnosis, does not touch the store and sends at
    most one request. *)
Theorem reply_only_appends {host : Host} (env : Env) (w : World) :
  let w' := snd (handlePracticeReply env (ui w) w) in
  exists added,
    chatHistory (ui w') = chatHistory (ui w) ++ added
    /\ map role added `prefix_of` [user; tutor]
    /\ diagnosis (ui w') = diagnosis (ui w)
    /\ localStorage w' = localStorage w
    /\ oneMore (requests w) (requests w').
Proof.
  intros w'. subst w'. destruct (nothingToSend (ui w)) eqn:Hguard.
  - unfold handlePracticeReply. rewrite Hguard. exists []. simpl.
    rewrite app_nil_r. repeat split; [apply prefix_nil | left; reflexivity].
  - destruct (handlePracticeReply_run env w Hguard)
      as (wf & extra & -> & Hchat & Hextra & Hdiag & _ & Hsto & Hreq & _).
    eexists. split; [exact Hchat |]. repeat split; try assumption.
    destruct Hextra as [-> | (m & -> & Hm)]; simpl.
    + exists [tutor]. reflexivity.
    + rewrite Hm. reflexivity.
Qed.

(** X10.  In every state reached by events from a state where it holds (the
    initial one, for instance): while there is a diagnosis, the transcript
    starts with the tutor's message carrying its [next_instruction]. *)
Theorem transcript_opens_with_instruction {host : Host} (env : Env)
    (events : list Event) (w : World) :
  opensWithInstruction (ui w) -> opensWithInstruction (ui (run env events w)).
Proof.
  revert w. induction events as [|e events IH]; intros w Hw; [exact Hw |].
  simpl. apply IH. clear IH.
  destruct (dispatch_cases env e w)
    as [(_ & Hs & _) | [(Hd & _) | [((m & Hc & Hr & Hm) & _)
        | [(_ & _ & _ & _ & [(Hs & _) | (ms & m & Hd & Hc & Hr & Hm)])
        | (_ & Htruthy & extra & Hc & _ & Hd & _)]]]];
    unfold opensWithInstruction.
  - unfold session in Hs. injection Hs as Hd Hc _. rewrite Hd, Hc. exact Hw.
  - rewrite Hd. discriminate.
  - intros _. eauto.
  - unfold session in Hs. injection Hs as Hd Hc _. rewrite Hd, Hc. exact Hw.
  - intros _. rewrite Hd, Hc. eauto.
  - intros _. destruct (Hw Htruthy) as (m & rest & Hold & Hr & Hm).
    rewrite Hc, Hd, Hold. simpl. eauto.
Qed.

Lemma transcript_opens_with_instruction_witness :
  opensWithInstruction
    (ui (run (answering (Codec.stringify stage1Answer)) visit freshWorld)).
Proof.
  apply (transcript_opens_with_instruction (answering (Codec.stringify stage1Answer))
           visit freshWorld).
  unfold opensWithInstruction. simpl. discriminate.
Defined.

(** X11.  No event leaves the page loading: if the loading flag is down before
    a run of events, it is down after it, whatever the gateway did. *)
Theorem loading_ends_with_the_event {host : Host} (env : Env)
    (events : list Event) (w : World) :
  isLoading (ui w) = false -> isLoading (ui (run env events w)) = false.
Proof.
  revert w. induction events as [|e events IH]; intros w Hw; [exact Hw |].
  simpl. apply IH. clear IH.
  destruct (dispatch_cases env e w)
    as [(_ & _ & Hl & _) | [(_ & _ & _ & Hl & _) | [(_ & _ & _ & Hl & _)
        | [(_ & Hl & _) | (_ & _ & extra & _ & _ & _ & Hl & _)]]]];
    congruence.
Qed.

Lemma loading_ends_with_the_event_witness :
  isLoading (ui (run unreachable visit freshWorld)) = false.
Proof.
  apply (loading_ends_with_the_event unreachable visit freshWorld). reflexivity.
Defined.

(** X12.  There is no retry: a run of events sends at most one request for
    each Start Diagnosis click, Reply click or key in the reply box in it,
    and earlier requests stay as they were sent. *)
Theorem one_request_per_action {host : Host} (env : Env)
    (events : list Event) (w : World) :
  requests w `prefix_of` requests (run env events w)
  /\ length (requests (run env events w))
     <= length (requests w) + length (filter (fun e => callsGateway e = true) events).
Proof.
  revert w. induction events as [|e events IH]; intros w; simpl.
  - split; [reflexivity | lia].
  - destruct (IH (snd (dispatch env e w))) as [Hpre Hlen].
    assert (Hstep : requests (snd (dispatch env e w)) = requests w
                    \/ (callsGateway e = true
                        /\ exists q, requests (snd (dispatch env e w)) = requests w ++ [q])).
    { destruct (dispatch_cases env e w)
        as [(Hr & _) | [(_ & Hr & _) | [(_ & Hr & _)
            | [(-> & _ & [Hr | Hr] & _) | (He & _ & extra & _ & _ & _ & _ & _ & [Hr | Hr] & _)]]]];
        try (left; exact Hr); right; split; try exact Hr; try reflexivity.
      destruct e; try discriminate; reflexivity. }
    destruct Hstep as [Hr | (Hc & q & Hr)]; rewrite Hr in *.
    + split; [exact Hpre |]. rewrite filter_cons. destruct (decide _); simpl; lia.
    + split; [etransitivity; [apply prefix_app_r; reflexivity | exact Hpre] |].
      rewrite filter_cons, decide_True by assumption.
      rewrite length_app in Hlen. simpl in *. lia.
Qed.

(** X13.  The store is written by two events only: a Start Diagnosis click
    and a Clear History click.  Replies, uploads, loading an item from the
    history and all typing leave local storage as it is. *)
Theorem store_written_by_diagnosis_and_clear_only {host : Host} (env : Env)
    (e : Event) (w : World) :
  localStorage (snd (dispatch env e w)) = localStorage w
  \/ e = ClickStartDiagnosis
  \/ exists confirmed, e = ClickClearHistory confirmed.
Proof.
  destruct (dispatch_cases env e w)
    as [(_ & _ & _ & [Hs | Hs]) | [(_ & _ & Hs & _) | [(_ & _ & Hs & _)
        | [(-> & _) | (_ & _ & extra & _ & _ & _ & _ & Hs & _)]]]];
    auto.
Qed.

(** X14.  Only a reply sets the mastery flag: when the flag goes up on an
    event, the event is a Reply click or a key in the reply box, the
    diagnosis is the same, and the transcript has just gained the user
    message and a tutor message. *)
Theorem mastery_set_by_reply_only {host : Host} (env : Env) (e : Event) (w : World) :
  let w' := snd (dispatch env e w) in
  isMasteryAchieved (ui w) = false ->
  isMasteryAchieved (ui w') = true ->
  submitsReply e = true
  /\ diagnosis (ui w') = diagnosis (ui w)
  /\ exists m,
       chatHistory (ui w')
       = chatHistory (ui w) ++ [userMessage (ui w) (clock env (ticks w)); m]
       /\ role m = tutor.
Proof.
  intros w' Hoff Hon. subst w'.
  destruct (dispatch_cases env e w)
    as [(_ & Hs & _) | [(_ & _ & _ & _ & [Hm | Hm]) | [(_ & _ & _ & _ & Hm)
        | [(_ & _ & _ & Hm & _)
        | (He & _ & extra & Hc & Hextra & Hd & _ & _ & _ & [Hm | (_ & Hne)])]]]];
    try congruence.
  - unfold session in Hs. injection Hs as _ _ Hm. congruence.
  - split; [exact He |]. split; [exact Hd |].
    destruct Hextra as [-> | (m & -> & Hr)]; [contradiction |]. eauto.
Qed.

Lemma mastery_set_by_reply_only_witness :
  let env := answering (Codec.stringify masteryFeedback) in
  let w := activeSession "F = ma, so a = 10" in
  let w' := snd (dispatch env ClickReply w) in
  submitsReply ClickReply = true
  /\ diagnosis (ui w') = diagnosis (ui w)
  /\ exists m,
       chatHistory (ui w')
       = chatHistory (ui w) ++ [userMessage (ui w) (clock env (ticks w)); m]
       /\ role m = tutor.
Proof.
  apply (mastery_set_by_reply_only (answering (Codec.stringify masteryFeedback)) ClickReply
           (activeSession "F = ma, so a = 10")); [reflexivity | vm_compute; reflexivity].
Defined.

(** ** Further properties of the handlers *)

Lemma getHistory_by_store {host : Host} (w1 w2 : World) (v : JSON) :
  localStorage w1 = localStorage w2 ->
  getHistory w1 = (Ok v, w1) -> getHistory w2 = (Ok v, w2).
Proof.
  unfold getHistory, try_catch, bind, getItem, ret, throw. intros <-.
  destruct (localStorage w1 !! HISTORY_KEY) as [blob|]; [| intros [= <-]; reflexivity].
  destruct (truthy_string blob); [| intros [= <-]; reflexivity].
  destruct (JSON_parse blob); intros [= <-]; reflexivity.
Qed.

(** X15.  When stage 1 throws, [handleInitialAnalysis] changes nothing but the
    error, which becomes the message of what was thrown (or a fixed one if
    it has none): no diagnosis, the transcript, the history and the store as
    before, the image and the typed text kept, loading over. *)
Theorem failed_diagnosis_sets_only_the_error {host : Host} (env : Env)
    (w w1 : World) (file : File.t) (e : JsError) :
  let s := ui w in
  image s = Some file ->
  analyzeHomework env (image s) (textInput s) (audioBlob s) (began w) = (Throw e, w1) ->
  let w' := snd (handleInitialAnalysis env s w) in
  session (ui w') = session s
  /\ history (ui w') = history s
  /\ localStorage w' = localStorage w
  /\ image (ui w') = image s /\ textInput (ui w') = textInput s
  /\ error (ui w') = Some (or_string (message e) "An unexpected error occurred.")
  /\ isLoading (ui w') = false.
Proof.
  intros s Himage Hrun w'.
  destruct (analyzeHomework_frame _ _ _ _ _ _ _ Hrun) as (Hui & Hsto & _).
  cut (exists wf, handleInitialAnalysis env s w = (Ok tt, wf)
         /\ session (ui wf) = session s
         /\ history (ui wf) = history s
         /\ localStorage wf = localStorage w
         /\ image (ui wf) = image s /\ textInput (ui wf) = textInput s
         /\ error (ui wf) = Some (or_string (message e) "An unexpected error occurred.")
         /\ isLoading (ui wf) = false).
  { intros (wf & Hr & Hgoal). subst w'. rewrite Hr. exact Hgoal. }
  clear w'. unfold handleInitialAnalysis. rewrite Himage in *.
  unfold began in Hrun, Hui, Hsto. simpl in Hrun, Hui, Hsto.
  unfold try_finally, try_catch, bind, lift. simpl. rewrite Hrun. simpl.
  eexists. split; [reflexivity |]. simpl. rewrite Hui, Hsto. simpl.
  subst s. rewrite Himage. repeat split.
Qed.

Lemma failed_diagnosis_sets_only_the_error_witness :
  let w := readyToDiagnose in
  let w' := snd (handleInitialAnalysis keyless (ui w) w) in
  session (ui w') = session (ui w)
  /\ history (ui w') = history (ui w)
  /\ localStorage w' = localStorage w
  /\ image (ui w') = image (ui w) /\ textInput (ui w') = textInput (ui w)
  /\ error (ui w')
     = Some (or_string (message missingKey) "An unexpected error occurred.")
  /\ isLoading (ui w') = false.
Proof.
  apply (failed_diagnosis_sets_only_the_error keyless readyToDiagnose
           (began readyToDiagnose) homeworkPhoto missingKey); reflexivity.
Defined.

Lemma handleInitialAnalysis_recorded {host : Host} {laws : HostLaws host} (env : Env)
    (w w1 : World) (file : File.t) (data : JSON) (l : list JSON) :
  image (ui w) = Some file ->
  analyzeHomework env (image (ui w)) (textInput (ui w)) (audioBlob (ui w)) (began w)
  = (Ok data, w1) ->
  getHistory w = (Ok (JArr l), w) ->
  exists wf, handleInitialAnalysis env (ui w) w = (Ok tt, wf)
    /\ history (ui wf) = JArr (itemAt env data (textInput (ui w)) (S (ticks w)) :: take 49 l)
    /\ getHistory wf = (Ok (history (ui wf)), wf)
    /\ error (ui wf) = None
    /\ isLoading (ui wf) = false
    /\ replyText (ui wf) = "" /\ replyAudio (ui wf) = None
    /\ requests wf = requests w1.
Proof.
  intros Himage Hrun Hlist.
  set (s := ui w) in *.
  set (item := itemAt env data (textInput s) (S (ticks w))).
  destruct (analyzeHomework_frame _ _ _ _ _ _ _ Hrun) as (Hui & Hsto & Hticks & _).
  destruct (analyzeHomework_object _ _ _ _ _ _ _ Hrun) as [ms ->].
  unfold handleInitialAnalysis. rewrite Himage in *.
  unfold began in Hrun, Hui, Hsto, Hticks. simpl in Hrun, Hui, Hsto, Hticks.
  unfold try_finally, try_catch, bind, lift. simpl. rewrite Hrun. simpl.
  match goal with
  | |- context [saveToHistory env ?r ?c ?x] =>
      assert (Hx : getHistory x = (Ok (JArr l), x))
        by (apply (getHistory_by_store w); [symmetry; exact Hsto | exact Hlist]);
      rewrite (saveToHistory_array env r c l x Hx);
      pose proof (getHistory_saved env r c l x) as Hsaved
  end.
  simpl in Hsaved |- *. rewrite Hticks in Hsaved |- *. fold item in Hsaved |- *.
  rewrite Hsaved. simpl.
  eexists. split; [reflexivity |]. simpl. rewrite Hui. simpl.
  split; [reflexivity |]. split; [| repeat split].
  eapply getHistory_by_store; [| exact Hsaved]. reflexivity.
Qed.

(** X16.  When stage 1 returns and the store lists an array, a successful
    [handleInitialAnalysis] records the diagnosis with the typed text as
    context: the history shown is the new item before the first 49 stored
    until then, it is what the store then lists, no error is left, loading is
    over and the reply box is empty. *)
Theorem diagnosis_is_recorded {host : Host} {laws : HostLaws host} (env : Env)
    (w w1 : World) (file : File.t) (data : JSON) (l : list JSON) :
  let s := ui w in
  image s = Some file ->
  analyzeHomework env (image s) (textInput s) (audioBlob s) (began w) = (Ok data, w1) ->
  getHistory w = (Ok (JArr l), w) ->
  let w' := snd (handleInitialAnalysis env s w) in
  let item := itemAt env data (textInput s) (S (ticks w)) in
  history (ui w') = JArr (item :: take 49 l)
  /\ getHistory w' = (Ok (history (ui w')), w')
  /\ error (ui w') = None
  /\ isLoading (ui w') = false
  /\ replyText (ui w') = "" /\ replyAudio (ui w') = None
  /\ requests w' = requests w1.
Proof.
  intros s Himage Hrun Hlist w' item.
  destruct (handleInitialAnalysis_recorded env w w1 file data l Himage Hrun Hlist)
    as (wf & Hr & Hgoal).
  subst w' s. rewrite Hr. exact Hgoal.
Qed.

Lemma diagnosis_is_recorded_witness :
  let env := answering (Codec.stringify stage1Answer) in
  let w := readyToDiagnose in
  let w' := snd (handleInitialAnalysis env (ui w) w) in
  let item := itemAt env sampleDiagnosis "" 1 in
  history (ui w') = JArr (item :: take 49 [])
  /\ getHistory w' = (Ok (history (ui w')), w')
  /\ error (ui w') = None
  /\ isLoading (ui w') = false
  /\ replyText (ui w') = "" /\ replyAudio (ui w') = None
  /\ requests w'
     = requests (snd (analyzeHomework env (Some homeworkPhoto) "" None
                        (began readyToDiagnose))).
Proof.
  apply (diagnosis_is_recorded (answering (Codec.stringify stage1Answer)) readyToDiagnose
           (snd (analyzeHomework (answering (Codec.stringify stage1Answer))
                   (Some homeworkPhoto) "" None (began readyToDiagnose)))
           homeworkPhoto sampleDiagnosis []);
    [reflexivity | vm_compute; reflexivity | reflexivity].
Defined.

(** X17.  [validateFile] accepts a file just when its type is one of
    [image/jpeg], [image/png], [image/webp], written exactly so, and its size
    is at most 10485760 bytes (a file of exactly 10 MB passes).  The type is
    looked at first: a file of another type gets the format message whatever
    its size. *)
Theorem validateFile_accepts_iff (file : File.t) :
  (validateFile file = None <->
   (File.type file = "image/jpeg" \/ File.type file = "image/png"
    \/ File.type file = "image/webp")
   /\ (File.size file <= 10485760)%N)
  /\ (File.type file <> "image/jpeg" -> File.type file <> "image/png" ->
      File.type file <> "image/webp" ->
      validateFile file
      = Some "Invalid file format. Please upload a JPG, PNG, or WebP image.").
Proof.
  assert (Hinc : includes ALLOWED_TYPES (File.type file) = true <->
                 (File.type file = "image/jpeg" \/ File.type file = "image/png"
                  \/ File.type file = "image/webp")).
  { unfold includes, ALLOWED_TYPES. cbn -[String.eqb].
    rewrite !orb_true_iff, !String.eqb_eq. intuition discriminate. }
  assert (Hmax : MAX_FILE_SIZE_BYTES = 10485760%N) by reflexivity.
  unfold validateFile. rewrite Hmax.
  destruct (includes ALLOWED_TYPES (File.type file)) eqn:Hi; cbn -[N.ltb].
  - destruct (N.ltb_spec 10485760 (File.size file)) as [Hs|Hs].
    + split.
      * split; [discriminate | intros [_ Hle]; lia].
      * intros H1 H2 H3. destruct (proj1 Hinc eq_refl) as [H|[H|H]]; congruence.
    + split.
      * split; [intros _; split; [apply Hinc; reflexivity | exact Hs] | reflexivity].
      * intros H1 H2 H3. destruct (proj1 Hinc eq_refl) as [H|[H|H]]; congruence.
  - split.
    + split; [discriminate |].
      intros [Ht _]. apply Hinc in Ht. discriminate.
    + reflexivity.
Qed.

(** X18.  An accepted file, chosen or dropped, starts over: it becomes the
    image with its object URL as preview, and diagnosis, transcript, reply
    text, reply audio, mastery flag and error are cleared.  The text and the
    audio of the first explanation, the history and the view stay, local
    storage is not touched and nothing is sent. *)
Theorem accepted_upload_starts_over (env : Env) (file : File.t) (w : World) :
  validateFile file = None ->
  let s' := ui (snd (handleImageUpload env (Some file) w)) in
  handleDrop env (Some file) w = handleImageUpload env (Some file) w
  /\ image s' = Some file /\ previewUrl s' = Some (createObjectURL env file)
  /\ session s' = (JNull, [], false)
  /\ replyText s' = "" /\ replyAudio s' = None /\ error s' = None
  /\ textInput s' = textInput (ui w) /\ audioBlob s' = audioBlob (ui w)
  /\ history s' = history (ui w) /\ showHistory s' = showHistory (ui w)
  /\ isLoading s' = isLoading (ui w)
  /\ localStorage (snd (handleImageUpload env (Some file) w)) = localStorage w
  /\ requests (snd (handleImageUpload env (Some file) w)) = requests w.
Proof.
  intros Hok s'. subst s'. unfold handleImageUpload, handleDrop, rejected.
  rewrite Hok. repeat split.
Qed.

Lemma accepted_upload_starts_over_witness :
  let env := answering "{}" in
  let w := masteredSession false in
  let s' := ui (snd (handleImageUpload env (Some homeworkPhoto) w)) in
  handleDrop env (Some homeworkPhoto) w = handleImageUpload env (Some homeworkPhoto) w
  /\ image s' = Some homeworkPhoto
  /\ previewUrl s' = Some (createObjectURL env homeworkPhoto)
  /\ session s' = (JNull, [], false)
  /\ replyText s' = "" /\ replyAudio s' = None /\ error s' = None
  /\ textInput s' = textInput (ui w) /\ audioBlob s' = audioBlob (ui w)
  /\ history s' = history (ui w) /\ showHistory s' = showHistory (ui w)
  /\ isLoading s' = isLoading (ui w)
  /\ localStorage (snd (handleImageUpload env (Some homeworkPhoto) w)) = localStorage w
  /\ requests (snd (handleImageUpload env (Some homeworkPhoto) w)) = requests w.
Proof.
  apply (accepted_upload_starts_over (answering "{}") homeworkPhoto (masteredSession false)).
  reflexivity.
Defined.

(** X19.  A reply on a diagnosis that has no practice question (its
    [new_practice_question] is missing or [null]) never reaches the gateway:
    reading the topic fails first.  The user's message is already in the
    transcript and the reply fields are already cleared; the message of the
    type error is shown, and mastery flag, diagnosis and local storage are as
    before. *)
Theorem reply_without_question_stops_before_gateway {host : Host} (env : Env) (w : World)
    (question : value) :
  let s := ui w in
  nothingToSend s = false ->
  get_prop (Some (diagnosis s)) "new_practice_question" = Ok question ->
  question = None \/ question = Some JNull ->
  let w' := snd (handlePracticeReply env s w) in
  requests w' = requests w
  /\ localStorage w' = localStorage w
  /\ chatHistory (ui w') = chatHistory s ++ [userMessage s (clock env (ticks w))]
  /\ replyText (ui w') = "" /\ replyAudio (ui w') = None
  /\ error (ui w')
     = Some ("Cannot read properties of " +:+ ToString_value question
             +:+ " (reading 'topic')")
  /\ isLoading (ui w') = false
  /\ diagnosis (ui w') = diagnosis s
  /\ isMasteryAchieved (ui w') = isMasteryAchieved s.
Proof.
  intros s Hguard Hq Hnone w'. subst w'.
  unfold handlePracticeReply. rewrite Hguard.
  unfold optimisticUpdate, tutorTurn, try_finally, try_catch, bind, lift, Date_now.
  rewrite Hq.
  destruct Hnone as [-> | ->]; simpl; repeat split.
Qed.

Lemma reply_without_question_stops_before_gateway_witness :
  let w := questionless "a = 10" in
  let w' := snd (handlePracticeReply (answering "{}") (ui w) w) in
  requests w' = []
  /\ localStorage w' = ∅
  /\ chatHistory (ui w') = [userMessage (ui w) 1700000000000]
  /\ replyText (ui w') = "" /\ replyAudio (ui w') = None
  /\ error (ui w') = Some "Cannot read properties of undefined (reading 'topic')"
  /\ isLoading (ui w') = false
  /\ diagnosis (ui w') = JObj compatibility
  /\ isMasteryAchieved (ui w') = false.
Proof.
  apply (reply_without_question_stops_before_gateway (answering "{}")
           (questionless "a = 10") None);
    [reflexivity | reflexivity | left; reflexivity].
Defined.

(** X20.  When stage 2 returns [null] (the service answered with the text
    [null]), the turn ends like a failed one although the gateway did not
    fail: the user's message stays, no tutor message is added, the mastery
    flag is as before, and the message shown is that of the type error of
    reading [feedback_message] from [null]. *)
Theorem null_feedback_is_shown_as_error {host : Host} (env : Env) (w w2 : World)
    (question topic question_text : value) :
  let s := ui w in
  let userMsg := userMessage s (clock env (ticks w)) in
  let w1 := snd (optimisticUpdate env s w) in
  nothingToSend s = false ->
  get_prop (Some (diagnosis s)) "new_practice_question" = Ok question ->
  get_prop question "topic" = Ok topic ->
  get_prop question "question_text" = Ok question_text ->
  evaluatePracticeResponse env topic question_text (chatHistory s ++ [userMsg])
    (or_string (replyText s) "(Audio Response)") (replyAudio s) w1 = (Ok JNull, w2) ->
  let w' := snd (handlePracticeReply env s w) in
  chatHistory (ui w') = chatHistory s ++ [userMsg]
  /\ diagnosis (ui w') = diagnosis s
  /\ isMasteryAchieved (ui w') = isMasteryAchieved s
  /\ error (ui w') = Some "Cannot read properties of null (reading 'feedback_message')"
  /\ isLoading (ui w') = false
  /\ requests w' = requests w2.
Proof.
  intros s userMsg w1 Hguard Hq Ht Hqt Heval w'.
  destruct (evaluatePracticeResponse_frame _ _ _ _ _ _ _ _ _ Heval) as (Hui & _ & _).
  assert (Hchat1 : chatHistory (ui w1) = chatHistory s ++ [userMsg]) by reflexivity.
  assert (Hflag1 : isMasteryAchieved (ui w1) = isMasteryAchieved s) by reflexivity.
  assert (Hdiag1 : diagnosis (ui w1) = diagnosis s) by reflexivity.
  assert (Hopt : optimisticUpdate env s w = (Ok userMsg, w1)) by reflexivity.
  cut (exists wf, handlePracticeReply env s w = (Ok tt, wf)
         /\ chatHistory (ui wf) = chatHistory s ++ [userMsg]
         /\ diagnosis (ui wf) = diagnosis s
         /\ isMasteryAchieved (ui wf) = isMasteryAchieved s
         /\ error (ui wf)
            = Some "Cannot read properties of null (reading 'feedback_message')"
         /\ isLoading (ui wf) = false
         /\ requests wf = requests w2).
  { intros (wf & Hrun & Hgoal). subst w'. rewrite Hrun. exact Hgoal. }
  clearbody w1 userMsg. clear w'.
  unfold handlePracticeReply. rewrite Hguard. unfold bind at 1. rewrite Hopt.
  unfold try_finally, try_catch, tutorTurn, bind, lift.
  rewrite Hq, Ht, Hqt, Heval. simpl.
  eexists; split; [reflexivity |]. simpl. rewrite Hui.
  repeat split; assumption.
Qed.

Lemma null_feedback_is_shown_as_error_witness :
  let env := answering "null" in
  let w := activeSession "F = ma, so a = 10" in
  let userMsg := userMessage (ui w) (clock env 0) in
  let w' := snd (handlePracticeReply env (ui w) w) in
  chatHistory (ui w') = [openingMessage; userMsg]
  /\ diagnosis (ui w') = sampleDiagnosis
  /\ isMasteryAchieved (ui w') = false
  /\ error (ui w') = Some "Cannot read properties of null (reading 'feedback_message')"
  /\ isLoading (ui w') = false
  /\ length (requests w') = 1.
Proof.
  intros env w userMsg w'.
  pose proof (null_feedback_is_shown_as_error env w
           (snd (evaluatePracticeResponse env (Some (JStr "Newton's second law"))
                   (Some (JStr "A 2 kg cart is pushed with 20 N. Find a."))
                   (chatHistory (ui w) ++ [userMsg]) "F = ma, so a = 10" None
                   (snd (optimisticUpdate env (ui w) w))))
           (field sampleDiagnosis "new_practice_question")
           (Some (JStr "Newton's second law"))
           (Some (JStr "A 2 kg cart is pushed with 20 N. Find a."))) as H.
  cbv zeta in H.
  destruct H as (H1 & H2 & H3 & H4 & H5 & H6);
    [reflexivity | reflexivity | reflexivity | reflexivity | vm_compute; reflexivity |].
  split; [exact H1 |]. split; [exact H2 |]. split; [exact H3 |].
  split; [exact H4 |]. split; [exact H5 |].
  subst w' w env. rewrite H6. reflexivity.
Defined.

Lemma evaluatePracticeResponse_sent {host : Host} (env : Env) (topic question : value)
    (chat : list ChatMessage) (input : string) (audio : option Blob.t)
    (w : World) (key : string) (audioParts : list Part) :
  getAIClient env w = (Ok key, w) ->
  audioPart env audio w = (Ok audioParts, w) ->
  requests (snd (evaluatePracticeResponse env topic question chat input audio w))
  = requests w ++ [feedbackRequest topic question chat input audioParts].
Proof.
  intros Hkey Haud. unfold evaluatePracticeResponse, bind. rewrite Hkey, Haud.
  unfold try_catch, generateContent, parseResponse, lift, throw, ret, feedbackRequest.
  simpl. repeat (inner_case; simpl); reflexivity.
Qed.

Lemma or_string_idem (a b c : string) :
  b <> "" -> or_string (or_string a b) c = or_string a b.
Proof.
  intros Hb. unfold or_string. destruct (truthy_string a) eqn:Ha.
  - now rewrite Ha.
  - unfold truthy_string. destruct (String.eqb_spec b ""); [contradiction | reflexivity].
Qed.

(** X21.  A reply that passes the key and audio steps sends exactly one
    request, whatever the service answers.  Its prompt names the topic and the
    question of the diagnosis, carries the transcript with the reply as its
    last line ([Student: ...]), and gives the same reply as the current
    input: the typed text, or [(Audio Response)] when only audio was recorded,
    so the gateway's own placeholder for an empty input is never used.  The
    audio sent is the one recorded before the reply fields were cleared. *)
Theorem reply_request_carries_the_reply {host : Host} (env : Env) (w : World)
    (question topic question_text : value) (key : string) (audioParts : list Part) :
  let s := ui w in
  let input := or_string (replyText s) "(Audio Response)" in
  let w1 := snd (optimisticUpdate env s w) in
  nothingToSend s = false ->
  get_prop (Some (diagnosis s)) "new_practice_question" = Ok question ->
  get_prop question "topic" = Ok topic ->
  get_prop question "question_text" = Ok question_text ->
  getAIClient env w1 = (Ok key, w1) ->
  audioPart env (replyAudio s) w1 = (Ok audioParts, w1) ->
  let w' := snd (handlePracticeReply env s w) in
  requests w'
  = requests w
    ++ [{| model := "gemini-2.5-flash";
           parts := text (FeedbackPrompt (ToString_value topic)
                            (ToString_value question_text)
                            (join newline (map historyLine (chatHistory s)
                                           ++ ["Student: " +:+ input]))
                            input) :: audioParts;
           responseMimeType := "application/json";
           responseSchema := feedbackSchema |}]
  /\ input <> ""
  /\ (replyText s <> "" -> input = replyText s).
Proof.
  intros s input w1 Hguard Hq Ht Hqt Hkey Haud w'.
  assert (Hinput : input <> "").
  { subst input. unfold or_string, truthy_string.
    destruct (String.eqb_spec (replyText s) ""); simpl; [discriminate | assumption]. }
  split; [| split; [exact Hinput |]].
  2:{ intros Hne. subst input. unfold or_string, truthy_string.
      destruct (String.eqb_spec (replyText s) ""); [contradiction | reflexivity]. }
  pose proof (evaluatePracticeResponse_sent env topic question_text
                (chatHistory s ++ [userMessage s (clock env (ticks w))])
                input (replyAudio s) w1 key audioParts Hkey Haud) as Hsent.
  assert (Hreq1 : requests w1 = requests w) by reflexivity.
  assert (Hopt : optimisticUpdate env s w
                 = (Ok (userMessage s (clock env (ticks w))), w1)) by reflexivity.
  rewrite Hreq1 in Hsent.
  unfold feedbackRequest in Hsent. rewrite map_app in Hsent.
  subst input. rewrite or_string_idem in Hsent by discriminate.
  change (map historyLine [userMessage s (clock env (ticks w))])
    with ["Student: " +:+ or_string (replyText s) "(Audio Response)"] in Hsent.
  change ([text ?p] ++ audioParts) with (text p :: audioParts) in Hsent.
  rewrite <- Hsent. clear Hsent.
  subst w'. clearbody w1.
  unfold handlePracticeReply. rewrite Hguard. unfold bind at 1. rewrite Hopt.
  unfold try_finally, try_catch, tutorTurn, bind, lift.
  rewrite Hq, Ht, Hqt.
  destruct (evaluatePracticeResponse env topic question_text
              (chatHistory s ++ [userMessage s (clock env (ticks w))])
              (or_string (replyText s) "(Audio Response)") (replyAudio s) w1)
    as [r w2] eqn:Heval.
  simpl. unfold Date_now.
  repeat (inner_case; simpl); reflexivity.
Qed.

Lemma reply_request_carries_the_reply_witness :
  let env := answering "{}" in
  let w := activeSession "F = ma, so a = 10" in
  let w' := snd (handlePracticeReply env (ui w) w) in
  requests w'
  = [{| model := "gemini-2.5-flash";
        parts := [text (FeedbackPrompt "Newton's second law"
                          "A 2 kg cart is pushed with 20 N. Find a."
                          (join newline ["Tutor: Write the law you will use.";
                                         "Student: F = ma, so a = 10"])
                          "F = ma, so a = 10")];
        responseMimeType := "application/json";
        responseSchema := feedbackSchema |}]
  /\ or_string "F = ma, so a = 10" "(Audio Response)" <> ""
  /\ ("F = ma, so a = 10" <> ""
      -> or_string "F = ma, so a = 10" "(Audio Response)" = "F = ma, so a = 10").
Proof.
  apply (reply_request_carries_the_reply (answering "{}")
           (activeSession "F = ma, so a = 10")
           (field sampleDiagnosis "new_practice_question")
           (Some (JStr "Newton's second law"))
           (Some (JStr "A 2 kg cart is pushed with 20 N. Find a."))
           "key" []); reflexivity.
Defined.

(** X22.  Opening the item that [saveToHistory] made of a diagnosis resumes
    that diagnosis: the session's diagnosis is the item, the transcript is the
    one tutor message with the diagnosis's [next_instruction] and the time of
    saving, and the practice question read for a reply is the diagnosis's.
    Image, preview, first audio, reply fields and error are cleared and the
    mastery flag is off; the typed first explanation and the history stay,
    local storage is not written and nothing is sent. *)
Theorem reopened_item_resumes_the_diagnosis (env : Env) (ms : list (string * JSON))
    (userContext : string) (t : nat) (w : World) :
  let item := itemAt env (JObj ms) userContext t in
  let out := handleHistorySelect item w in
  let s' := ui (snd out) in
  fst out = Ok tt
  /\ diagnosis s' = item
  /\ chatHistory s'
     = [{| role := tutor; content := own "next_instruction" ms;
           timestamp := Some (JNum (clock env (S (S t)))); feedbackType := INFO |}]
  /\ get_prop (Some (diagnosis s')) "new_practice_question"
     = get_prop (Some (JObj ms)) "new_practice_question"
  /\ nothingToSend s' = true
  /\ (image s', previewUrl s', audioBlob s', error s') = (None, None, None, None)
  /\ isMasteryAchieved s' = false /\ showHistory s' = false
  /\ textInput s' = textInput (ui w) /\ history s' = history (ui w)
  /\ localStorage (snd out) = localStorage w /\ requests (snd out) = requests w.
Proof.
  intros item out s'. subst s' out item.
  unfold handleHistorySelect, itemAt, bind, lift, get_prop. simpl own_props.
  rewrite !own_app. cbn -[String.eqb own].
  assert (H1 : own "next_instruction"
                 [("user_context", JStr userContext);
                  ("id", JStr (toString36 (clock env t) +:+ substr 2 (random36 env (S t))));
                  ("timestamp", JNum (clock env (S (S t))))] = None) by reflexivity.
  assert (H2 : own "timestamp"
                 [("user_context", JStr userContext);
                  ("id", JStr (toString36 (clock env t) +:+ substr 2 (random36 env (S t))));
                  ("timestamp", JNum (clock env (S (S t))))]
               = Some (JNum (clock env (S (S t))))) by reflexivity.
  assert (H3 : own "new_practice_question"
                 [("user_context", JStr userContext);
                  ("id", JStr (toString36 (clock env t) +:+ substr 2 (random36 env (S t))));
                  ("timestamp", JNum (clock env (S (S t))))] = None) by reflexivity.
  rewrite ?H1, ?H2, ?H3. simpl. rewrite ?own_app, ?H3. repeat split.
Qed.

(** ** The history view *)




(** X24.  A diagnosis without a practice question is recorded like any other,
    and from then on the history view cannot be built: its card reads
    [subject] from the missing question.  Reloading the page does not help,
    as the first render's effect loads the same list from local storage. *)
Theorem partial_diagnosis_breaks_history_view {host : Host} {laws : HostLaws host}
    (env : Env) (w w1 : World) (file : File.t) (data : JSON) (l : list JSON)
    (question : value) :
  let s := ui w in
  image s = Some file ->
  analyzeHomework env (image s) (textInput s) (audioBlob s) (began w) = (Ok data, w1) ->
  getHistory w = (Ok (JArr l), w) ->
  get_prop (Some data) "new_practice_question" = Ok question ->
  question = None \/ question = Some JNull ->
  let w' := snd (handleInitialAnalysis env s w) in
  let thrown :=
    Throw (TypeError ("Cannot read properties of " +:+ ToString_value question
                      +:+ " (reading 'subject')")) in
  historyView (history (ui w')) = thrown
  /\ fst (mountEffect (reloaded w')) = Ok tt
  /\ historyView (history (ui (snd (mountEffect (reloaded w'))))) = thrown.
Proof.
  intros s Himage Hrun Hlist Hq Hnone w' thrown.
  destruct (handleInitialAnalysis_recorded env w w1 file data l Himage Hrun Hlist)
    as (wf & Hr & Hhist & Hstored & _).
  destruct (analyzeHomework_object _ _ _ _ _ _ _ Hrun) as [ms ->].
  subst w' s. rewrite Hr. simpl snd.
  assert (Hview : historyView (history (ui wf)) = thrown).
  { rewrite Hhist. subst thrown. simpl in Hq. injection Hq as Hq.
    unfold itemAt. simpl historyView. unfold historyCard at 1, andThen, get_prop.
    simpl own_props. rewrite !own_app. cbn -[String.eqb own]. simpl own at 1 3 5 7.
    rewrite Hq. destruct Hnone as [-> | ->]; reflexivity. }
  split; [exact Hview |].
  assert (Hre : getHistory (reloaded wf) = (Ok (history (ui wf)), reloaded wf)).
  { apply (getHistory_by_store wf); [reflexivity | exact Hstored]. }
  unfold mountEffect, bind. rewrite Hre. simpl. split; [reflexivity | exact Hview].
Qed.

Lemma partial_diagnosis_breaks_history_view_witness :
  let env := answering "{}" in
  let w' := snd (handleInitialAnalysis env (ui readyToDiagnose) readyToDiagnose) in
  let thrown :=
    Throw (TypeError "Cannot read properties of undefined (reading 'subject')") in
  historyView (history (ui w')) = thrown
  /\ fst (mountEffect (reloaded w')) = Ok tt
  /\ historyView (history (ui (snd (mountEffect (reloaded w'))))) = thrown.
Proof.
  apply (partial_diagnosis_breaks_history_view (answering "{}") readyToDiagnose
           (snd (analyzeHomework (answering "{}") (Some homeworkPhoto) "" None
                   (began readyToDiagnose)))
           homeworkPhoto (JObj compatibility) [] None);
    [reflexivity | vm_compute; reflexivity | reflexivity | reflexivity | left; reflexivity].
Defined.

(** ** The recorder *)

Lemma string_of_N_inj (a b : N) : string_of_N a = string_of_N b -> a = b.
Proof.
  unfold string_of_N. intros H. apply DecimalN.Unsigned.to_uint_inj.
  assert (Hnn : forall n, N.to_uint n <> Decimal.Nil).
  { intros [|p]; [discriminate | apply DecimalPos.Unsigned.to_uint_nonnil]. }
  pose proof (NilZero.usu _ (Hnn a)) as Ha. pose proof (NilZero.usu _ (Hnn b)) as Hb.
  rewrite H in Ha. congruence.
Qed.

Lemma length_append (x y : string) :
  String.length (x +:+ y) = String.length x + String.length y.
Proof. induction x as [|c x IH]; simpl; [reflexivity | now rewrite IH]. Qed.

Lemma append_inj_length (x x' y y' : string) :
  String.length x = String.length x' -> x +:+ y = x' +:+ y' -> x = x' /\ y = y'.
Proof.
  revert x'. induction x as [|c x IH]; intros [|c' x']; simpl; try discriminate.
  - intros _ H. now split.
  - intros [= Hl] [= -> H]. destruct (IH x' Hl H) as [-> ->]. now split.
Qed.

Lemma secondsOfMinute_spec (s : N) : (s < 60)%N -> In s secondsOfMinute.
Proof.
  intros Hs. unfold secondsOfMinute. apply in_map_iff. exists (N.to_nat s).
  split; [apply N2Nat.id | apply in_seq; lia].
Qed.

Lemma seconds_shown (s t : N) :
  (s < 60)%N -> (t < 60)%N ->
  let shown := fun n : N => (if (n <? 10)%N then "0" else "") +:+ string_of_N n in
  String.length (shown s) = 2 /\ (shown s = shown t -> s = t).
Proof.
  intros Hs Ht shown.
  assert (Hall : forallb (fun a =>
                   Nat.eqb (String.length (shown a)) 2
                   && forallb (fun b => implb (String.eqb (shown a) (shown b)) (N.eqb a b))
                        secondsOfMinute) secondsOfMinute = true)
    by (vm_compute; reflexivity).
  rewrite forallb_forall in Hall.
  specialize (Hall s (secondsOfMinute_spec s Hs)).
  apply andb_prop in Hall as [Hlen Hinj]. split.
  - now apply Nat.eqb_eq.
  - intros Heq. rewrite forallb_forall in Hinj.
    specialize (Hinj t (secondsOfMinute_spec t Ht)).
    apply String.eqb_eq in Heq. rewrite Heq in Hinj. simpl in Hinj.
    now apply N.eqb_eq.
Qed.

(** X25.  [formatTime] shows the minutes, a colon and the seconds of the
    minute on exactly two digits, and two different durations are never shown
    alike. *)
Theorem formatTime_two_digits_and_injective (a b : N) :
  String.length (formatTime a) = String.length (string_of_N (a / 60)) + 3
  /\ (formatTime a = formatTime b -> a = b).
Proof.
  assert (Hlen : forall n,
            String.length (formatTime n) = String.length (string_of_N (n / 60)) + 3).
  { intros n. unfold formatTime. cbv zeta. rewrite length_append.
    change (":" +:+ ?x) with (String ":" x).
    cbn [String.length]. 
    destruct (seconds_shown (n mod 60) 0) as [Hl _];
      [apply N.mod_lt; discriminate | reflexivity |].
    cbv beta in Hl. rewrite Hl. lia. }
  split; [apply Hlen |].
  intros Heq.
  assert (Hmins : String.length (string_of_N (a / 60))
                  = String.length (string_of_N (b / 60))).
  { pose proof (Hlen a) as Ha. pose proof (Hlen b) as Hb. rewrite Heq in Ha. lia. }
  unfold formatTime in Heq. cbv zeta in Heq.
  destruct (append_inj_length _ _ _ _ Hmins Heq) as [Hm Hs].
  apply string_of_N_inj in Hm. injection Hs as Hs.
  destruct (seconds_shown (a mod 60) (b mod 60)) as [_ Hinj];
    [apply N.mod_lt; discriminate | apply N.mod_lt; discriminate |].
  specialize (Hinj Hs).
  rewrite (N.div_mod a 60), (N.div_mod b 60) by discriminate. congruence.
Qed.
